(** * k_tree_example.cpp: the ingestion pipeline of the k-tree example driver

    A shallow embedding of [read_entire_file], [buffer_to_list], [build],
    [unittest], [usage] and [main] of [src/example/k_tree_example.cpp],
    followed by the properties of the pipeline.

    Conventions.
    - A byte ([uint8_t], [char]) is a [Z]; a buffer ([std::string], or the
      memory a [uint8_t *] points into) is a [list Z]; reading the position
      just after the last byte of a [std::string] gives the terminating
      zero, which is what [deref] returns there.
    - A pointer into the buffer is the [nat] offset from its start.
    - Every [while] loop is a [Fixpoint] on a fuel argument that returns
      [None] when the fuel runs out; the callers pass one more than the
      length of the buffer, and the theorems show that this is enough. *)

From Stdlib Require Import ZArith Lia Bool SpecFloat Sorted.
From stdpp Require Import base option list strings.

Local Open Scope Z_scope.

(** ** The C library functions the program calls *)

Module Libc.

(** [isspace] in the "C" locale: space, \t, \n, \v, \f and \r. *)
Definition isspace (c : Z) : bool :=
  (c =? 32) || ((9 <=? c) && (c <=? 13)).

(** [strcmp(a, b) == 0]. *)
Definition strcmp_eq (a b : string) : bool := String.eqb a b.

(** The value of [printf] on a successful write: the number of characters
    transmitted. *)
Definition printf (text : string) : Z := Z.of_nat (String.length text).

(** The conversion of an [int] to [size_t] (64 bits). *)
Definition size_t_of_int (n : Z) : Z := n mod 2 ^ 64.

(** The conversion [(float)] of a [double]: rounding to the nearest binary32
    number, ties to even. *)
Definition float_of_double (d : spec_float) : spec_float :=
  match d with
  | S754_finite s m e => binary_round 24 128 s m e
  | _ => d
  end.

End Libc.
Export Libc.

Definition newline : string := String (Ascii.ascii_of_nat 10) EmptyString.

(** The bytes of a string literal. *)
Definition bytes (s : string) : list Z :=
  (λ a, Z.of_nat (Ascii.nat_of_ascii a)) <$> String.list_ascii_of_string s.

Definition LF : Z := 10.
Definition CR : Z := 13.

(** ** Memory *)

(** [*pos], for [pos] pointing into [buffer]. *)
Definition deref (buffer : list Z) (pos : nat) : Z := default 0 (buffer !! pos).

(** The C string that starts at the beginning of [mem]: the bytes before
    the first zero. *)
Fixpoint c_str (mem : list Z) : list Z :=
  match mem with
  | [] => []
  | c :: mem' => if c =? 0 then [] else c :: c_str mem'
  end.

(** The C string a pointer [pos] into [buffer] denotes. *)
Definition string_at (buffer : list Z) (pos : nat) : list Z := c_str (drop pos buffer).

(** The loop [while (cond( *pos )) pos++;]. *)
Fixpoint scan_while (cond : Z -> bool) (fuel : nat) (buffer : list Z) (pos : nat) : option nat :=
  match fuel with
  | O => None
  | S fuel' =>
      if cond (deref buffer pos) then scan_while cond fuel' buffer (S pos) else Some pos
  end.

(** ** std::vector, with the capacity it has reserved *)

Record std_vector (A : Type) : Type := Build_vector {
  elems : list A;
  capacity : nat;
  (** how many times [push_back] found the vector full and had to grow it *)
  regrowths : nat
}.
Arguments Build_vector {A} _ _ _.
Arguments elems {A} _.
Arguments capacity {A} _.
Arguments regrowths {A} _.

Module Vector.
Section Ops.
Context {A : Type}.

Definition empty : std_vector A := Build_vector [] 0%nat 0%nat.

Definition clear (v : std_vector A) : std_vector A :=
  Build_vector [] (capacity v) (regrowths v).

Definition reserve (v : std_vector A) (n : nat) : std_vector A :=
  if (capacity v <? n)%nat then Build_vector (elems v) n (regrowths v) else v.

Definition push_back (v : std_vector A) (x : A) : std_vector A :=
  if (length (elems v) <? capacity v)%nat
  then Build_vector (elems v ++ [x]) (capacity v) (regrowths v)
  else Build_vector (elems v ++ [x]) (Nat.max 1 (2 * capacity v)) (S (regrowths v)).
End Ops.
End Vector.

(** ** buffer_to_list (lines 66-118) *)

Definition is_terminator (c : Z) : bool := (c =? LF) || (c =? CR).

(** [*pos != '\n' && *pos != '\r' && *pos != '\0'] *)
Definition starts_line (c : Z) : bool :=
  negb (c =? LF) && negb (c =? CR) && negb (c =? 0).

(** The first walk (lines 74-88), from [pos] with [line_count] lines counted
    so far. *)
Fixpoint count_lines (fuel : nat) (buffer : list Z) (pos line_count : nat) : option nat :=
  match fuel with
  | O => None
  | S fuel' =>
      if deref buffer pos =? 0 then Some line_count
      else if is_terminator (deref buffer pos) then
        pos ← scan_while is_terminator (S (length buffer)) buffer pos;
        count_lines fuel' buffer pos (S line_count)
      else count_lines fuel' buffer (S pos) line_count
  end.

(** The second walk (lines 102-117). *)
Fixpoint split_lines (fuel : nat) (line_list : std_vector nat) (buffer : list Z) (pos : nat)
    : option (std_vector nat * list Z) :=
  match fuel with
  | O => None
  | S fuel' =>
      if deref buffer pos =? 0 then Some (line_list, buffer)
      else if is_terminator (deref buffer pos) then
        let buffer := <[pos := 0]> buffer in
        let pos := S pos in
        pos ← scan_while is_terminator (S (length buffer)) buffer pos;
        let line_list :=
          if negb (deref buffer pos =? 0) then Vector.push_back line_list pos else line_list in
        split_lines fuel' line_list buffer pos
      else split_lines fuel' line_list buffer (S pos)
  end.

Definition buffer_to_list (line_list : std_vector nat) (buffer : list Z)
    : option (std_vector nat * list Z) :=
  line_count ← count_lines (S (length buffer)) buffer 0 0;
  let line_list := Vector.clear line_list in
  let line_list := Vector.reserve line_list line_count in
  let line_list :=
    if starts_line (deref buffer 0) then Vector.push_back line_list 0%nat else line_list in
  split_lines (S (length buffer)) line_list buffer 0.

(** ** The vector objects of the index *)

(** Modelled from the spec: [k_tree::object] and its factory [new_object]
    are declared in [k_tree.h], which is not part of the sources. An object
    owns an array [vector] of as many floats as the index has dimensions; a
    new object is writable and its components hold nothing yet ([None]).
    [beyond] is the memory after the end of the array: the stores the program
    makes at an index that is not below the declared length, in the order it
    makes them. *)
Record object : Type := Build_object {
  vector : list (option spec_float);
  beyond : list (nat * spec_float)
}.

(** Modelled from the spec: [new_object] of [k_tree.h], the factory that
    yields a new writable vector of the dimensionality of the index. *)
Definition new_object (dimensions : nat) : object :=
  Build_object (replicate dimensions None) [].

(** [obj->vector[index] = value] (line 191). The program makes no test of
    [index]: a store at or after the declared length lands in [beyond]. *)
Definition store (obj : object) (index : nat) (value : spec_float) : object :=
  if (index <? length (vector obj))%nat
  then Build_object (<[index := Some value]> (vector obj)) (beyond obj)
  else Build_object (vector obj) (beyond obj ++ [(index, value)]).

(** ** What a run of the program does *)

Inductive event : Type :=
  | Print (text : string)                       (* printf, std::cout *)
  | Fopen (filename : string)
  | Fclose (filename : string)
  | TreeNew (tree_order : Z) (dimensions : nat) (* k_tree::k_tree tree(...) *)
  | NewObject                                   (* example_vector->new_object *)
  | TreePushBack (obj : object)                 (* tree.push_back *)
  | OfstreamOpen (filename : string)            (* std::ofstream outfile(...) *)
  | OfstreamWrite                               (* outfile << tree *)
  | OfstreamClose
  | UnittestObject                              (* k_tree::object::unittest *)
  | UnittestTree.                               (* k_tree::k_tree::unittest *)

Inductive outcome : Type :=
  | Returned (status : Z)      (* the function returned [status] *)
  | Exited (status : Z)        (* [exit(status)] was called *)
  | Undefined.                 (* an access outside a container: lines[0] of an empty vector *)

Definition run : Type := list event * outcome.

(** What the file system answers for a file name. *)
Inductive file_status : Type :=
  | Missing
    (* fopen gives nullptr *)
  | Present (st_size : option nat) (data : option (list Z)).
    (* fopen succeeds; fstat fails ([None]) or reports [st_size]; fread of
       [st_size] bytes fails ([None]) or delivers [data] *)

Definition file_system : Type := string -> file_status.

(** ** read_entire_file (lines 25-56) *)

(** [into.resize(n)] *)
Definition resize (into : list Z) (n : nat) : list Z :=
  take n into ++ replicate (n - length into) 0.

(** The bytes a successful [fread(&into[0], ...)] leaves in [into]. *)
Definition fread_into (data into : list Z) : list Z :=
  take (length into) (data ++ drop (length data) into).

(** Returns [file_length], the final [into] and the calls made. *)
Definition read_entire_file (fs : file_system) (filename : string) (into : list Z)
    : nat * list Z * list event :=
  let file_length := 0%nat in
  match fs filename with
  | Present details data =>
      match details with
      | Some st_size =>
          let file_length := st_size in
          if negb (file_length =? 0)%nat then
            let into := resize into file_length in
            match data with
            | Some data => (file_length, fread_into data into, [Fopen filename; Fclose filename])
            | None => (file_length, resize into 0, [Fopen filename; Fclose filename])
            end
          else (file_length, into, [Fopen filename; Fclose filename])
      | None => (file_length, into, [Fopen filename; Fclose filename])
      end
  | Missing => (file_length, into, [Fopen filename])
  end.

(** ** build (lines 125-213) *)

(** [*pos != '\0' && !isspace( *pos )] *)
Definition in_token (c : Z) : bool := negb (c =? 0) && negb (isspace c).

(** Lines 155-165: the do-while loop that counts the dimensions of the
    first vector. *)
Fixpoint count_dimensions (fuel : nat) (buffer : list Z) (pos dimensions : nat) : option nat :=
  match fuel with
  | O => None
  | S fuel' =>
      pos ← scan_while isspace (S (length buffer)) buffer pos;
      if deref buffer pos =? 0 then Some dimensions
      else
        let dimensions := S dimensions in
        pos ← scan_while in_token (S (length buffer)) buffer pos;
        if negb (deref buffer pos =? 0) then count_dimensions fuel' buffer pos dimensions
        else Some dimensions
  end.

(** Lines 153-165, for the line that starts at [line]. *)
Definition line_dimensions (buffer : list Z) (line : nat) : option nat :=
  count_dimensions (S (length buffer)) buffer line 0.

Section Driver.

(** [atof] and [atoi] of the C library. *)
Variable atof : list Z -> spec_float.
Variable atoi : string -> Z.

(** Lines 182-194: the do-while loop that fills [objectionable]. *)
Fixpoint parse_vector (fuel : nat) (buffer : list Z) (pos : nat)
    (objectionable : object) (dimension : nat) : option object :=
  match fuel with
  | O => None
  | S fuel' =>
      pos ← scan_while isspace (S (length buffer)) buffer pos;
      if deref buffer pos =? 0 then Some objectionable
      else
        let value := float_of_double (atof (string_at buffer pos)) in
        pos ← scan_while in_token (S (length buffer)) buffer pos;
        let objectionable := store objectionable dimension value in
        let dimension := S dimension in
        if negb (deref buffer pos =? 0)
        then parse_vector fuel' buffer pos objectionable dimension
        else Some objectionable
  end.

(** Lines 178-196: the body of the loop over the lines. *)
Definition parse_line (buffer : list Z) (dimensions : nat) (line : nat) : option object :=
  parse_vector (S (length buffer)) buffer line (new_object dimensions) 0.

Definition tree_order_text : string :=
  "Tree order must be between 2 and 1,000,000" +:+ newline.

Definition cannot_read_text (infilename : string) : string :=
  "Cannot read vector file: '" +:+ infilename +:+ "'" +:+ newline.

Definition build (fs : file_system) (infilename : string) (tree_order : Z)
    (outfilename : string) : option run :=
  if (tree_order <? 2) || (tree_order >? 1000000) then
    Some ([Print tree_order_text], Exited (printf tree_order_text))
  else
    let '(bytes, file_contents, io) := read_entire_file fs infilename [] in
    if (bytes <=? 0)%nat then
      Some (io ++ [Print (cannot_read_text infilename)],
            Exited (printf (cannot_read_text infilename)))
    else
      '(lines, file_contents) ← buffer_to_list Vector.empty file_contents;
      match elems lines !! 0%nat with
      | None => Some (io, Undefined)
      | Some first =>
          dimensions ← line_dimensions file_contents first;
          vector_list ← mapM (parse_line file_contents dimensions) (elems lines);
          Some (io ++ [TreeNew tree_order dimensions]
                   ++ (const NewObject <$> elems lines)
                   ++ (TreePushBack <$> vector_list)
                   ++ [OfstreamOpen outfilename; OfstreamWrite; OfstreamClose],
                Returned 0)
      end.

(** ** unittest (lines 220-226), usage (lines 239-243), main (lines 249-262) *)

Definition unittest : option run :=
  Some ([UnittestObject; UnittestTree], Returned 0).

Definition usage_text (exename : string) : string :=
  "Usage:" +:+ exename +:+ " <[build | unittest]> <in_file> <tree_order> <outfile>" +:+ newline.

Definition usage (exename : string) : option run :=
  Some ([Print (usage_text exename)], Returned 0).

(** [argv[i]] *)
Definition arg (argv : list string) (i : nat) : string := default EmptyString (argv !! i).

Definition main (fs : file_system) (argv : list string) : option run :=
  let argc := length argv in
  if negb (argc =? 5)%nat then
    if (argc =? 2)%nat then unittest
    else usage (arg argv 0)
  else if strcmp_eq (arg argv 1) "unittest" then unittest
  else if strcmp_eq (arg argv 1) "build" then
    build fs (arg argv 2) (size_t_of_int (atoi (arg argv 3))) (arg argv 4)
  else usage (arg argv 0).

End Driver.

(** ** A reading of decimal numbers for [atof]

    [atof] is the C library's. [decimal_atof] is its value on the decimal
    forms of the input format ([sign digits . digits e sign digits], after
    white space): the nearest binary64 number to the decimal value. *)

Definition is_digit (c : Z) : bool := (48 <=? c) && (c <=? 57).

(** The digits at the start of [text], appended to the decimal number [acc]:
    the number, how many digits were read, and the rest of the text. *)
Fixpoint read_digits (text : list Z) (acc : Z) (count : Z) : Z * Z * list Z :=
  match text with
  | c :: text' =>
      if is_digit c then read_digits text' (10 * acc + (c - 48)) (count + 1)
      else (acc, count, text)
  | [] => (acc, count, text)
  end.

Fixpoint skip_space (text : list Z) : list Z :=
  match text with
  | c :: text' => if isspace c then skip_space text' else text
  | [] => []
  end.

(** An optional sign: whether it is a minus, and the rest. *)
Definition read_sign (text : list Z) : bool * list Z :=
  match text with
  | 45 :: text' => (true, text')
  | 43 :: text' => (false, text')
  | _ => (false, text)
  end.

(** An optional exponent part; it counts only when it has a digit. *)
Definition read_exponent (text : list Z) : Z :=
  match text with
  | c :: text' =>
      if (c =? 101) || (c =? 69) then
        let '(negative, text'') := read_sign text' in
        let '(e, count, _) := read_digits text'' 0 0 in
        if count =? 0 then 0 else if negative then - e else e
      else 0
  | [] => 0
  end.

(** The binary64 number nearest to [m * 10 ^ e10]. *)
Definition binary64_of_decimal (negative : bool) (m e10 : Z) : spec_float :=
  match m with
  | Zpos p =>
      if 0 <=? e10 then binary_round 53 1024 negative (p * Z.to_pos (10 ^ e10)) 0
      else SFdiv 53 1024 (S754_finite negative p 0)
                         (S754_finite false (Z.to_pos (10 ^ (- e10))) 0)
  | _ => S754_zero negative
  end.

Definition decimal_atof (text : list Z) : spec_float :=
  let '(negative, text) := read_sign (skip_space text) in
  let '(m, int_digits, text) := read_digits text 0 0 in
  let '(m, frac_digits, text) :=
    match text with
    | 46 :: text' => read_digits text' m 0
    | _ => (m, 0, text)
    end in
  if int_digits + frac_digits =? 0 then S754_zero false
  else binary64_of_decimal negative m (read_exponent text - frac_digits).

(** ** The words of the specification *)

(** The pieces of [text] between separators, empty ones included. *)
Fixpoint fields (sep : Z -> bool) (text : list Z) : list (list Z) :=
  match text with
  | [] => [[]]
  | c :: text' =>
      if sep c then [] :: fields sep text'
      else match fields sep text' with
           | f :: fs => (c :: f) :: fs
           | [] => [[c]]
           end
  end.

Definition nonempty (f : list Z) : bool := negb (length f =? 0)%nat.

Definition nonempty_fields (sep : Z -> bool) (text : list Z) : list (list Z) :=
  List.filter nonempty (fields sep text).

(** The non-blank logical lines of a text: what is left between line
    terminators once the lines made of terminators only are dropped. *)
Definition nonblank_lines (text : list Z) : list (list Z) :=
  nonempty_fields is_terminator text.

(** The whitespace-delimited tokens of a line. *)
Definition tokens (line : list Z) : list (list Z) :=
  nonempty_fields isspace line.

(** The rest of the text from the start of each field that is not empty;
    [fresh] tells whether a field may start at the head of [text]. *)
Fixpoint tails_from (sep : Z -> bool) (fresh : bool) (text : list Z) : list (list Z) :=
  match text with
  | [] => []
  | c :: text' =>
      if sep c then tails_from sep true text'
      else (if fresh then [text] else []) ++ tails_from sep false text'
  end.

(** What [atof] is given for each token of a line: the line from the start
    of the token on. *)
Definition token_tails (line : list Z) : list (list Z) := tails_from isspace true line.

(** The length of the longest prefix of [s] whose bytes satisfy [cond]: how
    far [scan_while cond] advances on [s]. *)
Fixpoint run_length (cond : Z -> bool) (s : list Z) : nat :=
  match s with
  | c :: s' => if cond c then S (run_length cond s') else O
  | [] => O
  end.

(** The number of maximal runs of separators in [text]; [in_run] tells
    whether the byte before [text] was a separator. *)
Fixpoint runs (sep : Z -> bool) (in_run : bool) (text : list Z) : nat :=
  match text with
  | [] => O
  | c :: text' =>
      if sep c then ((if in_run then 0 else 1) + runs sep true text')%nat
      else runs sep false text'
  end.

(** The number of runs of line terminators in a text. *)
Definition terminator_runs (text : list Z) : nat := runs is_terminator false text.

(** [*pos != '\0'] and not a line terminator: a byte of a line. *)
Definition in_line (c : Z) : bool := negb (c =? 0) && negb (is_terminator c).

(** [store]s of consecutive values from index [dimension] on. *)
Fixpoint store_from (obj : object) (dimension : nat) (values : list spec_float) : object :=
  match values with
  | [] => obj
  | value :: values' => store_from (store obj dimension value) (S dimension) values'
  end.

(** A text at which a field ends: the end, or a separator. *)
Definition boundary (sep : Z -> bool) (t : list Z) : Prop :=
  match t with
  | [] => True
  | c :: _ => sep c = true
  end.

(** [buffer_to_list] returns on [buffer], whatever [line_list] held before,
    and the C strings at the pointers it leaves in [line_list] are [lines],
    in this order. *)
Definition splits_into (buffer : list Z) (lines : list (list Z)) : Prop :=
  forall line_list, exists v' buffer',
    buffer_to_list line_list buffer = Some (v', buffer') /\
    string_at buffer' <$> elems v' = lines.

(** The input of the specification's example: a b\n\n\nc d\n *)
Definition example_text : list Z := bytes "a b" ++ [LF; LF; LF] ++ bytes "c d" ++ [LF].

(** The binary32 number [m * 2 ^ e]. *)
Definition binary32 (m e : Z) : spec_float := binary_normalize 24 128 m e false.

(** The events that touch the output file. *)
Definition writes_output (e : event) : bool :=
  match e with
  | OfstreamOpen _ | OfstreamWrite | OfstreamClose => true
  | _ => false
  end.

(** build has passed the test of the tree order: the run starts with the
    opening of the input file and never prints the tree-order diagnostic. *)
Definition passes_validation (r : option run) (infilename : string) : Prop :=
  exists trace out,
    r = Some (Fopen infilename :: trace, out) /\
    Forall (fun e => e <> Print tree_order_text) trace.

(** The offsets at which the fields of [text] that are not empty start,
    [text] itself starting at offset [pos]; [fresh] tells whether a field
    may start at the head of [text]. *)
Fixpoint starts_from (sep : Z -> bool) (fresh : bool) (pos : nat) (text : list Z) : list nat :=
  match text with
  | [] => []
  | c :: text' =>
      if sep c then starts_from sep true (S pos) text'
      else (if fresh then [pos] else []) ++ starts_from sep false (S pos) text'
  end.

(** The memory [mem] with the first byte of each run of line terminators
    that comes before the first zero set to zero; [in_run] tells whether the
    byte before [mem] was a terminator that a run has already paid for. *)
Fixpoint zero_heads (in_run : bool) (mem : list Z) : list Z :=
  match mem with
  | [] => []
  | c :: mem' =>
      if c =? 0 then mem
      else if is_terminator c then (if in_run then c else 0) :: zero_heads true mem'
      else c :: zero_heads false mem'
  end.

(** [push_back] of each element of a list, in order. *)
Definition push_all {A} (v : std_vector A) (l : list A) : std_vector A :=
  foldl Vector.push_back v l.

(** Whether the last byte of a text is a line terminator. *)
Definition ends_with_terminator (text : list Z) : bool :=
  match last text with
  | Some c => is_terminator c
  | None => false
  end.

(** The object the parser leaves for a line of text when the index has
    [dimensions] dimensions: one value per token, the float [atof] reads at
    the start of the token; the first [dimensions] of them in the array, the
    components after the last token not written, the values after the
    [dimensions]-th stored after the end of the array. *)
Definition line_values (atof : list Z -> spec_float) (line : list Z) : list spec_float :=
  (fun tail => float_of_double (atof tail)) <$> token_tails line.

Definition line_object (atof : list Z -> spec_float) (dimensions : nat) (line : list Z)
    : object :=
  let values := line_values atof line in
  Build_object
    ((Some <$> take dimensions values) ++ replicate (dimensions - length values) None)
    (zip (seq dimensions (length values - dimensions)) (drop dimensions values)).

(** What a host that keeps the low 8 bits of the status (POSIX wait)
    reports for [exit(status)]. *)
Definition wait_status (status : Z) : Z := Z.land status 255.

(** A file name of 228 characters. *)
Definition long_name : string :=
  String.string_of_list_ascii (replicate 228 (Ascii.ascii_of_nat 97)).

(** The events that touch a file. *)
Definition touches_file (e : event) : bool :=
  match e with
  | Fopen _ | Fclose _ | OfstreamOpen _ | OfstreamWrite | OfstreamClose => true
  | _ => false
  end.

(** * Properties *)

(** ** Pointers and suffixes *)

Section Memory.
Implicit Types (buffer s : list Z) (pos : nat).

Lemma drop_cons_inv buffer pos c s :
  drop pos buffer = c :: s ->
  buffer !! pos = Some c /\ drop (S pos) buffer = s /\ (pos < length buffer)%nat.
Proof.
  intros E.
  assert (L : buffer !! pos = Some c).
  { rewrite <- (Nat.add_0_r pos), <- lookup_drop, E. reflexivity. }
  split; [exact L|]. split.
  - rewrite (drop_S _ _ _ L) in E. congruence.
  - eapply lookup_lt_Some, L.
Qed.

Lemma deref_drop buffer pos : deref buffer pos = default 0 (head (drop pos buffer)).
Proof.
  unfold deref. rewrite head_lookup, lookup_drop, Nat.add_0_r. reflexivity.
Qed.

Lemma deref_nil buffer pos : drop pos buffer = [] -> deref buffer pos = 0.
Proof. intros E. rewrite deref_drop, E. reflexivity. Qed.

Lemma deref_cons buffer pos c s : drop pos buffer = c :: s -> deref buffer pos = c.
Proof. intros E. rewrite deref_drop, E. reflexivity. Qed.

Lemma deref_nonzero_lt buffer pos : deref buffer pos <> 0 -> (pos < length buffer)%nat.
Proof.
  unfold deref. intros H. destruct (buffer !! pos) eqn:E; [|done].
  eapply lookup_lt_Some, E.
Qed.

(** Two buffers that agree before [n] agree at every position before [n]. *)
Lemma take_eq_lookup buffer buffer' n i :
  take n buffer' = take n buffer -> (i < n)%nat -> buffer' !! i = buffer !! i.
Proof.
  intros E Hi.
  rewrite <- (lookup_take_lt buffer' n i Hi), <- (lookup_take_lt buffer n i Hi), E.
  reflexivity.
Qed.

Lemma take_eq_le buffer buffer' n m :
  take n buffer' = take n buffer -> (m <= n)%nat -> take m buffer' = take m buffer.
Proof.
  intros E Hm.
  rewrite <- (Nat.min_l m n Hm), <- !take_take, E. reflexivity.
Qed.

Lemma string_at_cons buffer pos c :
  buffer !! pos = Some c -> c <> 0 ->
  string_at buffer pos = c :: string_at buffer (S pos).
Proof.
  intros L Hc. unfold string_at. rewrite (drop_S _ _ _ L). simpl.
  destruct (Z.eqb_spec c 0); [contradiction|reflexivity].
Qed.

Lemma string_at_zero buffer pos : buffer !! pos = Some 0 -> string_at buffer pos = [].
Proof. intros L. unfold string_at. rewrite (drop_S _ _ _ L). reflexivity. Qed.

Lemma string_at_end buffer pos : deref buffer pos = 0 -> string_at buffer pos = [].
Proof.
  rewrite deref_drop. unfold string_at.
  destruct (drop pos buffer) as [|c s]; [reflexivity|]. simpl. intros ->. reflexivity.
Qed.

End Memory.

(** ** Runs: what [scan_while] does *)

Section Runs.
Variable cond : Z -> bool.
Hypothesis cond_zero : cond 0 = false.

Lemma scan_while_run buffer : forall fuel pos,
  (length buffer - pos < fuel)%nat ->
  scan_while cond fuel buffer pos = Some (pos + run_length cond (drop pos buffer))%nat.
Proof.
  induction fuel as [|fuel IH]; intros pos Hfuel; [lia|].
  simpl. destruct (drop pos buffer) as [|c s] eqn:E.
  - rewrite (deref_nil _ _ E), cond_zero. simpl. f_equal. lia.
  - rewrite (deref_cons _ _ _ _ E). simpl.
    destruct (drop_cons_inv _ _ _ _ E) as (_ & E' & Hlt).
    destruct (cond c); [|f_equal; lia].
    rewrite IH by lia. rewrite E'. f_equal. lia.
Qed.

Lemma run_length_le s : (run_length cond s <= length s)%nat.
Proof. induction s as [|c s IH]; simpl; [lia|]. destruct (cond c); simpl; lia. Qed.

(** The byte after the run does not satisfy [cond]. *)
Lemma run_stops s : cond (default 0 (head (drop (run_length cond s) s))) = false.
Proof.
  induction s as [|c s IH]; simpl; [exact cond_zero|].
  destruct (cond c) eqn:E; simpl; [exact IH|exact E].
Qed.

Lemma run_Forall s : Forall (fun c => cond c = true) (take (run_length cond s) s).
Proof.
  induction s as [|c s IH]; simpl; [constructor|].
  destruct (cond c) eqn:E; simpl; [constructor; assumption|constructor].
Qed.

(** The run holds no zero, so the C string goes through it. *)
Lemma c_str_run s :
  c_str s = take (run_length cond s) s ++ c_str (drop (run_length cond s) s).
Proof.
  induction s as [|c s IH]; simpl; [reflexivity|].
  destruct (cond c) eqn:E; simpl.
  - destruct (Z.eqb_spec c 0) as [->|_]; [congruence|]. f_equal. exact IH.
  - reflexivity.
Qed.

End Runs.

(** ** Fields: the pieces between separators *)

Section Fields.
Variable sep : Z -> bool.

Lemma nonempty_fields_sep c t :
  sep c = true -> nonempty_fields sep (c :: t) = nonempty_fields sep t.
Proof. intros E. unfold nonempty_fields. simpl. rewrite E. reflexivity. Qed.

Lemma nonempty_fields_skip pre t :
  Forall (fun c => sep c = true) pre ->
  nonempty_fields sep (pre ++ t) = nonempty_fields sep t.
Proof.
  induction 1 as [|c pre Hc _ IH]; [reflexivity|].
  simpl. rewrite nonempty_fields_sep by exact Hc. exact IH.
Qed.

Lemma nonempty_fields_all_sep t :
  Forall (fun c => sep c = true) t -> nonempty_fields sep t = [].
Proof.
  intros H. rewrite <- (app_nil_r t), nonempty_fields_skip by exact H. reflexivity.
Qed.

Lemma fields_boundary t : boundary sep t -> exists fs, fields sep t = [] :: fs.
Proof.
  destruct t as [|c t]; simpl.
  - intros _. exists []. reflexivity.
  - intros ->. eexists. reflexivity.
Qed.

Lemma fields_word w t fs :
  Forall (fun c => sep c = false) w ->
  fields sep t = [] :: fs ->
  fields sep (w ++ t) = w :: fs.
Proof.
  intros Hw Ht. induction Hw as [|c w Hc _ IH]; [exact Ht|].
  simpl. rewrite Hc, IH. reflexivity.
Qed.

Lemma nonempty_fields_word w t :
  w <> [] -> Forall (fun c => sep c = false) w -> boundary sep t ->
  nonempty_fields sep (w ++ t) = w :: nonempty_fields sep t.
Proof.
  intros Hne Hw Hb. destruct (fields_boundary t Hb) as [fs Hfs].
  unfold nonempty_fields. rewrite (fields_word w t fs Hw Hfs), Hfs.
  destruct w; [contradiction|reflexivity].
Qed.

Lemma fields_not_nil t : fields sep t <> [].
Proof.
  destruct t as [|c t]; simpl; [discriminate|].
  destruct (sep c); [discriminate|]. destruct (fields sep t); discriminate.
Qed.

(** A field that ends the text, after a separator or at the start. *)
Lemma fields_app_sep a c b :
  sep c = true -> fields sep (a ++ c :: b) = fields sep a ++ fields sep b.
Proof.
  intros Hc. induction a as [|x a IH]; simpl.
  - rewrite Hc. reflexivity.
  - destruct (sep x); [rewrite IH; reflexivity|].
    rewrite IH. pose proof (fields_not_nil a) as Hne.
    destruct (fields sep a); [contradiction|reflexivity].
Qed.

Lemma nonempty_fields_last pre last :
  last <> [] -> Forall (fun c => sep c = false) last ->
  pre = [] \/ (exists pre' c, pre = pre' ++ [c] /\ sep c = true) ->
  nonempty_fields sep (pre ++ last) = nonempty_fields sep pre ++ [last].
Proof.
  intros Hne Hlast [->|(pre' & c & -> & Hc)].
  - simpl. rewrite <- (app_nil_r last) at 1.
    rewrite nonempty_fields_word by (assumption || exact I). reflexivity.
  - assert (E : nonempty_fields sep last = [last]).
    { rewrite <- (app_nil_r last) at 1.
      rewrite nonempty_fields_word by (assumption || exact I). reflexivity. }
    rewrite <- app_assoc. simpl. unfold nonempty_fields in *.
    rewrite !fields_app_sep by exact Hc.
    rewrite !List.filter_app, E. simpl. rewrite app_nil_r. reflexivity.
Qed.

Lemma tails_from_skip pre t :
  Forall (fun c => sep c = true) pre ->
  tails_from sep true (pre ++ t) = tails_from sep true t.
Proof.
  induction 1 as [|c pre Hc _ IH]; [reflexivity|]. simpl. rewrite Hc. exact IH.
Qed.

Lemma tails_from_inside w t :
  Forall (fun c => sep c = false) w -> boundary sep t ->
  tails_from sep false (w ++ t) = tails_from sep true t.
Proof.
  intros Hw Hb. induction Hw as [|c w Hc _ IH]; simpl.
  - destruct t as [|c t]; [reflexivity|]. simpl in Hb. simpl. rewrite Hb. reflexivity.
  - rewrite Hc. exact IH.
Qed.

Lemma tails_from_word w t :
  w <> [] -> Forall (fun c => sep c = false) w -> boundary sep t ->
  tails_from sep true (w ++ t) = (w ++ t) :: tails_from sep true t.
Proof.
  intros Hne Hw Hb. destruct Hw as [|c w Hc Hw]; [contradiction|].
  simpl. rewrite Hc. simpl. f_equal. apply tails_from_inside; assumption.
Qed.

(** *** Fields of a C string *)

Variable cond : Z -> bool.
Hypothesis cond_spec : forall c, cond c = negb (c =? 0) && negb (sep c).
Hypothesis sep_zero : sep 0 = false.

Lemma cond_zero : cond 0 = false.
Proof. rewrite cond_spec. reflexivity. Qed.

Lemma boundary_after_run s : boundary sep (c_str (drop (run_length cond s) s)).
Proof.
  pose proof (run_stops cond cond_zero s) as H.
  destruct (drop (run_length cond s) s) as [|c s']; simpl; [exact I|].
  simpl in H. rewrite cond_spec in H.
  destruct (c =? 0); simpl; [exact I|].
  simpl in H. destruct (sep c); [reflexivity|discriminate].
Qed.

Lemma nonempty_fields_c_str s :
  nonempty_fields sep (c_str s) =
  match run_length cond s with
  | O => []
  | S _ => [take (run_length cond s) s]
  end ++ nonempty_fields sep (c_str (drop (run_length cond s) s)).
Proof.
  destruct (run_length cond s) as [|n] eqn:E; [reflexivity|]. rewrite <- E.
  rewrite (c_str_run cond cond_zero s) at 1.
  apply nonempty_fields_word.
  - intros Hnil. apply (f_equal length) in Hnil.
    rewrite length_take in Hnil. pose proof (run_length_le cond s). simpl in Hnil. lia.
  - eapply Forall_impl; [apply run_Forall|].
    intros c Hc. simpl in Hc. rewrite cond_spec in Hc.
    destruct (sep c); [|reflexivity]. rewrite andb_false_r in Hc. discriminate.
  - apply boundary_after_run.
Qed.

Lemma run_not_sep s :
  Forall (fun c => sep c = false) (take (run_length cond s) s).
Proof.
  eapply Forall_impl; [apply run_Forall|].
  intros c Hc. simpl in Hc. rewrite cond_spec in Hc.
  destruct (sep c); [|reflexivity]. rewrite andb_false_r in Hc. discriminate.
Qed.

Lemma tails_from_c_str s :
  (0 < run_length cond s)%nat ->
  tails_from sep true (c_str s) =
  c_str s :: tails_from sep true (c_str (drop (run_length cond s) s)).
Proof.
  intros Hpos. rewrite (c_str_run cond cond_zero s) at 1 2.
  apply tails_from_word.
  - intros Hnil. apply (f_equal length) in Hnil.
    rewrite length_take in Hnil. pose proof (run_length_le cond s). simpl in Hnil. lia.
  - apply run_not_sep.
  - apply boundary_after_run.
Qed.

Lemma tails_from_c_str_skip s :
  tails_from sep true (c_str s) =
  tails_from sep true (c_str (drop (run_length sep s) s)).
Proof.
  rewrite (c_str_run sep sep_zero s) at 1.
  apply tails_from_skip, run_Forall.
Qed.

Lemma nonempty_fields_c_str_skip s :
  nonempty_fields sep (c_str s) =
  nonempty_fields sep (c_str (drop (run_length sep s) s)).
Proof.
  rewrite (c_str_run sep sep_zero s) at 1.
  apply nonempty_fields_skip, run_Forall.
Qed.

Lemma nonempty_fields_end s :
  default 0 (head s) = 0 -> nonempty_fields sep (c_str s) = [].
Proof. destruct s as [|c s]; simpl; [reflexivity|]. intros ->. reflexivity. Qed.

End Fields.

(** ** The two walks of buffer_to_list *)

Section Splitter.

Lemma terminator_zero : is_terminator 0 = false.
Proof. reflexivity. Qed.

Lemma in_line_spec c : in_line c = negb (c =? 0) && negb (is_terminator c).
Proof. reflexivity. Qed.

Lemma starts_line_in_line c : starts_line c = in_line c.
Proof.
  unfold starts_line, in_line, is_terminator.
  destruct (c =? LF), (c =? CR), (c =? 0); reflexivity.
Qed.

Lemma elems_push_back {A} (v : std_vector A) x :
  elems (Vector.push_back v x) = elems v ++ [x].
Proof. unfold Vector.push_back. destruct (_ <? _)%nat; reflexivity. Qed.

Lemma split_lines_S fuel v buffer pos :
  split_lines (S fuel) v buffer pos =
  if deref buffer pos =? 0 then Some (v, buffer)
  else if is_terminator (deref buffer pos) then
    pos2 ← scan_while is_terminator (S (length (<[pos := 0]> buffer)))
             (<[pos := 0]> buffer) (S pos);
    split_lines fuel
      (if negb (deref (<[pos := 0]> buffer) pos2 =? 0)
       then Vector.push_back v pos2 else v)
      (<[pos := 0]> buffer) pos2
  else split_lines fuel v buffer (S pos).
Proof. reflexivity. Qed.

(** The second walk from [pos]: it writes only at [pos] and after, it ends
    the line that is in progress at [pos], and the pointers it pushes read
    the non-blank lines of the rest of the text. *)
Lemma split_lines_spec : forall fuel v buffer pos,
  (length buffer - pos < fuel)%nat ->
  exists v' buffer' new,
    split_lines fuel v buffer pos = Some (v', buffer') /\
    elems v' = elems v ++ new /\
    length buffer' = length buffer /\
    take pos buffer' = take pos buffer /\
    string_at buffer' pos = take (run_length in_line (drop pos buffer)) (drop pos buffer) /\
    string_at buffer' <$> new =
      nonblank_lines (c_str (drop (run_length in_line (drop pos buffer)) (drop pos buffer))).
Proof.
  induction fuel as [|fuel IH]; intros v buffer pos Hfuel; [lia|].
  rewrite split_lines_S. destruct (drop pos buffer) as [|c s] eqn:E.
  - rewrite (deref_nil _ _ E). simpl. exists v, buffer, [].
    rewrite app_nil_r. unfold string_at. rewrite E. repeat split; reflexivity.
  - rewrite (deref_cons _ _ _ _ E).
    destruct (drop_cons_inv _ _ _ _ E) as (L & E' & Hlt).
    destruct (Z.eqb_spec c 0) as [->|Hc].
    { exists v, buffer, []. rewrite app_nil_r, (string_at_zero _ _ L).
      repeat split; reflexivity. }
    destruct (is_terminator c) eqn:Ht.
    + (* a run of terminators starts at [pos] *)
      set (buffer1 := <[pos := 0]> buffer).
      assert (Hlen1 : length buffer1 = length buffer) by apply length_insert.
      assert (E1 : drop (S pos) buffer1 = s).
      { unfold buffer1. rewrite drop_insert_lt by lia. exact E'. }
      rewrite (scan_while_run is_terminator terminator_zero) by lia.
      rewrite E1. cbn [mbind option_bind].
      set (k := run_length is_terminator s).
      pose proof (run_length_le is_terminator s) as Hk. fold k in Hk.
      assert (Hs : length s = (length buffer - S pos)%nat).
      { rewrite <- E', length_drop. reflexivity. }
      assert (E2 : drop (S (pos + k)) buffer1 = drop k s).
      { rewrite <- E1, drop_drop. reflexivity. }
      change (S pos + k)%nat with (S (pos + k)).
      rewrite (deref_drop buffer1), E2.
      match goal with |- context [split_lines fuel ?w _ _] => set (v2 := w) end.
      destruct (IH v2 buffer1 (S (pos + k))) as
        (v' & buffer' & new' & Hrun & Hel & Hlen & Htake & Hstr & Hnew); [lia|].
      rewrite E2 in Hstr, Hnew.
      exists v', buffer',
        ((if negb (default 0 (head (drop k s)) =? 0) then [S (pos + k)] else []) ++ new').
      split; [exact Hrun|]. split.
      { rewrite Hel. unfold v2. destruct (negb _).
        - rewrite elems_push_back, <- app_assoc. reflexivity.
        - reflexivity. }
      split; [congruence|]. split.
      { rewrite (take_eq_le _ _ _ pos Htake) by lia.
        unfold buffer1. apply take_insert_ge. lia. }
      assert (Hin : in_line c = false).
      { rewrite in_line_spec, Ht. apply andb_false_r. }
      assert (Hrl : run_length in_line (c :: s) = O) by (simpl; rewrite Hin; reflexivity).
      rewrite Hrl, take_0, drop_0. split.
      { apply string_at_zero. rewrite (take_eq_lookup _ _ _ pos Htake) by lia.
        unfold buffer1. apply list_lookup_insert_eq. exact Hlt. }
      unfold nonblank_lines.
      rewrite (nonempty_fields_c_str_skip is_terminator terminator_zero (c :: s)).
      assert (Hrt : run_length is_terminator (c :: s) = S k) by (simpl; rewrite Ht; reflexivity).
      rewrite Hrt. change (drop (S k) (c :: s)) with (drop k s).
      rewrite (nonempty_fields_c_str is_terminator in_line in_line_spec (drop k s)).
      rewrite fmap_app. unfold nonblank_lines in Hnew. rewrite Hnew. f_equal.
      pose proof (run_stops is_terminator terminator_zero s) as Hstop. fold k in Hstop.
      destruct (drop k s) as [|c2 s2] eqn:Ek; simpl; [reflexivity|].
      simpl in Hstop. rewrite in_line_spec, Hstop. simpl in Hstr.
      rewrite in_line_spec, Hstop in Hstr.
      destruct (c2 =? 0); simpl; [reflexivity|].
      simpl in Hstr. rewrite Hstr. reflexivity.
    + (* a byte of the line in progress *)
      destruct (IH v buffer (S pos)) as
        (v' & buffer' & new & Hrun & Hel & Hlen & Htake & Hstr & Hnew); [lia|].
      rewrite E' in Hstr, Hnew.
      exists v', buffer', new.
      split; [exact Hrun|]. split; [exact Hel|]. split; [exact Hlen|].
      split; [apply (take_eq_le _ _ _ pos Htake); lia|].
      assert (Hin : in_line c = true).
      { rewrite in_line_spec, Ht. destruct (Z.eqb_spec c 0); [contradiction|reflexivity]. }
      assert (Hrl : run_length in_line (c :: s) = S (run_length in_line s))
        by (simpl; rewrite Hin; reflexivity).
      rewrite Hrl. split; [|exact Hnew].
      rewrite (string_at_cons _ _ c), Hstr; [reflexivity| |exact Hc].
      rewrite (take_eq_lookup _ _ _ pos Htake) by lia. exact L.
Qed.

End Splitter.

Section BufferToList.

Lemma count_lines_S fuel buffer pos line_count :
  count_lines (S fuel) buffer pos line_count =
  if deref buffer pos =? 0 then Some line_count
  else if is_terminator (deref buffer pos) then
    pos2 ← scan_while is_terminator (S (length buffer)) buffer pos;
    count_lines fuel buffer pos2 (S line_count)
  else count_lines fuel buffer (S pos) line_count.
Proof. reflexivity. Qed.

(** The first walk ends, whatever the buffer. *)
Lemma count_lines_total : forall fuel buffer pos line_count,
  (length buffer - pos < fuel)%nat ->
  exists n, count_lines fuel buffer pos line_count = Some n.
Proof.
  induction fuel as [|fuel IH]; intros buffer pos line_count Hfuel; [lia|].
  rewrite count_lines_S.
  destruct (Z.eqb_spec (deref buffer pos) 0) as [|Hc]; [eexists; reflexivity|].
  pose proof (deref_nonzero_lt _ _ Hc) as Hlt.
  destruct (is_terminator (deref buffer pos)) eqn:Ht.
  - rewrite (scan_while_run is_terminator terminator_zero) by lia.
    cbn [mbind option_bind].
    destruct (drop pos buffer) as [|c s] eqn:E.
    { rewrite (deref_nil _ _ E) in Hc. contradiction. }
    rewrite (deref_cons _ _ _ _ E) in Ht. simpl. rewrite Ht.
    apply IH. lia.
  - apply IH. lia.
Qed.

Lemma runs_skip sep pre rest :
  Forall (fun c => sep c = true) pre ->
  runs sep true (pre ++ rest) = runs sep true rest.
Proof.
  induction 1 as [|c pre Hc _ IH]; [reflexivity|]. simpl. rewrite Hc. exact IH.
Qed.

Lemma runs_not_sep sep in_run rest :
  sep (default 0 (head rest)) = false -> sep 0 = false ->
  runs sep in_run (c_str rest) = runs sep false (c_str rest).
Proof.
  destruct rest as [|c rest]; simpl; [reflexivity|]. intros Hc _.
  destruct (c =? 0); [reflexivity|]. simpl. rewrite Hc. reflexivity.
Qed.

(** What the first walk counts: the runs of terminators of the text. *)
Lemma count_lines_spec : forall fuel buffer pos line_count,
  (length buffer - pos < fuel)%nat ->
  count_lines fuel buffer pos line_count =
  Some (line_count + terminator_runs (string_at buffer pos))%nat.
Proof.
  induction fuel as [|fuel IH]; intros buffer pos line_count Hfuel; [lia|].
  rewrite count_lines_S. unfold string_at, terminator_runs.
  destruct (drop pos buffer) as [|c s] eqn:E.
  { rewrite (deref_nil _ _ E). simpl. f_equal. lia. }
  rewrite (deref_cons _ _ _ _ E).
  destruct (drop_cons_inv _ _ _ _ E) as (_ & E' & Hlt).
  destruct (Z.eqb_spec c 0) as [->|Hc]; [simpl; f_equal; lia|].
  destruct (is_terminator c) eqn:Ht.
  - rewrite (scan_while_run is_terminator terminator_zero) by lia.
    cbn [mbind option_bind]. rewrite E.
    assert (Hrt : run_length is_terminator (c :: s) = S (run_length is_terminator s))
      by (simpl; rewrite Ht; reflexivity).
    rewrite Hrt. set (k := run_length is_terminator s).
    rewrite IH by lia. f_equal. unfold string_at.
    replace (pos + S k)%nat with (S pos + k)%nat by lia.
    rewrite <- drop_drop, E'.
    rewrite (c_str_run is_terminator terminator_zero (c :: s)), Hrt.
    change (take (S k) (c :: s)) with (c :: take k s).
    change (drop (S k) (c :: s)) with (drop k s).
    unfold terminator_runs. simpl. rewrite Ht.
    rewrite runs_skip by apply run_Forall.
    rewrite (runs_not_sep is_terminator true)
      by (apply run_stops; reflexivity) || exact terminator_zero.
    subst k. lia.
  - rewrite IH by lia. unfold string_at. rewrite E'. f_equal.
    unfold terminator_runs. simpl.
    destruct (Z.eqb_spec c 0); [contradiction|]. simpl. rewrite Ht. reflexivity.
Qed.

Lemma elems_reserve {A} (v : std_vector A) n : elems (Vector.reserve v n) = elems v.
Proof. unfold Vector.reserve. destruct (_ <? _)%nat; reflexivity. Qed.

Lemma c_str_no_zero t : Forall (fun c => c <> 0) t -> c_str t = t.
Proof.
  induction 1 as [|c t Hc _ IH]; [reflexivity|]. simpl.
  destruct (Z.eqb_spec c 0); [contradiction|]. rewrite IH. reflexivity.
Qed.

Lemma in_line_nonzero c : in_line c = true -> c <> 0.
Proof. unfold in_line. intros H ->. discriminate. Qed.

Lemma in_line_not_terminator c : in_line c = true -> is_terminator c = false.
Proof. unfold in_line. destruct (is_terminator c); [|reflexivity]. rewrite andb_false_r. discriminate. Qed.

Lemma terminator_nonzero c : is_terminator c = true -> c <> 0.
Proof. intros H ->. discriminate. Qed.

(** buffer_to_list returns, its pointers read the non-blank lines of the
    text in the buffer, in order, and the buffer keeps its length. *)
Lemma buffer_to_list_spec line_list buffer :
  exists v' buffer',
    buffer_to_list line_list buffer = Some (v', buffer') /\
    string_at buffer' <$> elems v' = nonblank_lines (c_str buffer) /\
    length buffer' = length buffer.
Proof.
  unfold buffer_to_list.
  destruct (count_lines_total (S (length buffer)) buffer 0 0) as [n ->]; [lia|].
  cbn [mbind option_bind].
  match goal with |- context [split_lines _ ?w _ _] => set (v0 := w) end.
  destruct (split_lines_spec (S (length buffer)) v0 buffer 0) as
    (v' & buffer' & new & Hrun & Hel & Hlen & _ & Hstr & Hnew); [lia|].
  rewrite drop_0 in Hstr, Hnew.
  exists v', buffer'. split; [exact Hrun|]. split; [|exact Hlen].
  unfold nonblank_lines.
  rewrite (nonempty_fields_c_str is_terminator in_line in_line_spec buffer).
  rewrite Hel, fmap_app. unfold nonblank_lines in Hnew. rewrite Hnew. f_equal.
  unfold v0. rewrite starts_line_in_line, deref_drop, drop_0.
  destruct buffer as [|c s]; simpl.
  - rewrite elems_reserve. reflexivity.
  - destruct (in_line c) eqn:Hin.
    + rewrite elems_push_back, elems_reserve. simpl.
      simpl in Hstr. rewrite Hin in Hstr. rewrite Hstr. reflexivity.
    + rewrite elems_reserve. reflexivity.
Qed.

End BufferToList.

Lemma splits_into_nonblank buffer : splits_into buffer (nonblank_lines (c_str buffer)).
Proof.
  intros line_list.
  destruct (buffer_to_list_spec line_list buffer) as (v' & buffer' & Hrun & Hlines & _).
  exists v', buffer'. split; assumption.
Qed.

(** C1. For every buffer the Line Splitter returns one pointer per
    non-blank logical line of the text the buffer holds (its bytes up to the
    first zero, which is all of it when it holds no zero byte), in file
    order. A text of terminators only gives no line; a last line that no
    terminator follows is the last pointer; and the text a b\n\n\nc d\n gives
    the two lines "a b" and "c d". *)
Theorem buffer_to_list_nonblank_lines :
  (forall buffer, splits_into buffer (nonblank_lines (c_str buffer))) /\
  (forall buffer, Forall (fun c => c <> 0) buffer ->
     splits_into buffer (nonblank_lines buffer)) /\
  (forall buffer, Forall (fun c => is_terminator c = true) buffer ->
     splits_into buffer []) /\
  (forall pre last,
     Forall (fun c => c <> 0) pre ->
     pre = [] \/ (exists pre' c, pre = pre' ++ [c] /\ is_terminator c = true) ->
     last <> [] -> Forall (fun c => in_line c = true) last ->
     splits_into (pre ++ last) (nonblank_lines pre ++ [last])) /\
  splits_into example_text [bytes "a b"; bytes "c d"].
Proof.
  assert (Hfree : forall buffer, Forall (fun c => c <> 0) buffer ->
                    splits_into buffer (nonblank_lines buffer)).
  { intros buffer H. rewrite <- (c_str_no_zero buffer H) at 2. apply splits_into_nonblank. }
  split; [exact splits_into_nonblank|]. split; [exact Hfree|]. split; [|split].
  - intros buffer H.
    rewrite <- (nonempty_fields_all_sep is_terminator buffer H).
    apply Hfree. eapply Forall_impl; [exact H|]. apply terminator_nonzero.
  - intros pre last Hpre Hend Hne Hlast.
    unfold nonblank_lines.
    rewrite <- (nonempty_fields_last is_terminator pre last Hne); [|
      eapply Forall_impl; [exact Hlast|]; apply in_line_not_terminator | exact Hend].
    apply Hfree. apply Forall_app. split; [exact Hpre|].
    eapply Forall_impl; [exact Hlast|]. apply in_line_nonzero.
  - apply (Hfree example_text). vm_compute. repeat constructor; discriminate.
Qed.

Lemma buffer_to_list_nonblank_lines_witness :
  splits_into (bytes "a b") [bytes "a b"] /\
  splits_into [LF; CR; LF] [] /\
  splits_into (bytes "a b" ++ [CR; LF] ++ bytes "c d") ([bytes "a b"] ++ [bytes "c d"]).
Proof.
  split; [|split].
  - apply (proj1 (proj2 buffer_to_list_nonblank_lines) (bytes "a b")).
    vm_compute. repeat constructor; discriminate.
  - apply (proj1 (proj2 (proj2 buffer_to_list_nonblank_lines))).
    repeat constructor.
  - apply (proj1 (proj2 (proj2 (proj2 buffer_to_list_nonblank_lines)))
             (bytes "a b" ++ [CR; LF]) (bytes "c d")).
    + vm_compute. repeat constructor; discriminate.
    + right. exists (bytes "a b" ++ [CR]), LF. split; reflexivity.
    + discriminate.
    + vm_compute. repeat constructor.
Defined.

(** ** The token loops of build *)

Section Tokens.

Lemma isspace_zero : isspace 0 = false.
Proof. reflexivity. Qed.

Lemma in_token_spec c : in_token c = negb (c =? 0) && negb (isspace c).
Proof. reflexivity. Qed.

Lemma tokens_end buffer pos : deref buffer pos = 0 -> tokens (string_at buffer pos) = [].
Proof. intros H. rewrite (string_at_end _ _ H). reflexivity. Qed.

(** One turn of the do-while loops: white space is skipped up to [pos1];
    there the line ends and holds no token, or a token [w] is skipped up
    to [pos2] and the tokens of the line are [w] and those from [pos2]. *)
Lemma token_step buffer pos :
  exists pos1,
    scan_while isspace (S (length buffer)) buffer pos = Some pos1 /\
    (pos <= pos1)%nat /\
    ((deref buffer pos1 = 0 /\ tokens (string_at buffer pos) = [] /\
      token_tails (string_at buffer pos) = []) \/
     (deref buffer pos1 <> 0 /\
      exists pos2 w,
        scan_while in_token (S (length buffer)) buffer pos1 = Some pos2 /\
        (pos1 < pos2)%nat /\
        tokens (string_at buffer pos) = w :: tokens (string_at buffer pos2) /\
        token_tails (string_at buffer pos) =
          string_at buffer pos1 :: token_tails (string_at buffer pos2))).
Proof.
  rewrite (scan_while_run isspace isspace_zero) by lia.
  set (k := run_length isspace (drop pos buffer)).
  exists (pos + k)%nat. split; [reflexivity|]. split; [lia|].
  assert (Hskip : tokens (string_at buffer pos) = tokens (string_at buffer (pos + k))).
  { unfold tokens, string_at.
    rewrite (nonempty_fields_c_str_skip isspace isspace_zero (drop pos buffer)).
    fold k. rewrite drop_drop. reflexivity. }
  assert (Hskip' : token_tails (string_at buffer pos) =
                   token_tails (string_at buffer (pos + k))).
  { unfold token_tails, string_at.
    rewrite (tails_from_c_str_skip isspace isspace_zero (drop pos buffer)).
    fold k. rewrite drop_drop. reflexivity. }
  destruct (Z.eqb_spec (deref buffer (pos + k)) 0) as [Hz|Hnz].
  - left. split; [exact Hz|]. rewrite Hskip, Hskip', (string_at_end _ _ Hz).
    split; reflexivity.
  - right. split; [exact Hnz|].
    rewrite (scan_while_run in_token (cond_zero isspace in_token in_token_spec)) by lia.
    set (j := run_length in_token (drop (pos + k) buffer)).
    exists (pos + k + j)%nat, (take j (drop (pos + k) buffer)).
    split; [reflexivity|].
    assert (Hj : (0 < j)%nat).
    { pose proof (run_stops isspace isspace_zero (drop pos buffer)) as Hstop.
      fold k in Hstop. rewrite drop_drop in Hstop.
      rewrite deref_drop in Hnz. unfold j.
      destruct (drop (pos + k) buffer) as [|c s]; [contradiction|].
      simpl in Hstop, Hnz. simpl. rewrite in_token_spec, Hstop.
      destruct (Z.eqb_spec c 0); [contradiction|]. simpl. lia. }
    split; [lia|]. split.
    + rewrite Hskip. unfold tokens, string_at.
      rewrite (nonempty_fields_c_str isspace in_token in_token_spec (drop (pos + k) buffer)).
      fold j. rewrite drop_drop. destruct j; [lia|]. reflexivity.
    + rewrite Hskip'. unfold token_tails, string_at.
      rewrite (tails_from_c_str isspace in_token in_token_spec (drop (pos + k) buffer))
        by exact Hj.
      fold j. rewrite drop_drop. reflexivity.
Qed.

Lemma token_tails_end buffer pos :
  deref buffer pos = 0 -> token_tails (string_at buffer pos) = [].
Proof. intros H. rewrite (string_at_end _ _ H). reflexivity. Qed.

Lemma count_dimensions_S fuel buffer pos dimensions :
  count_dimensions (S fuel) buffer pos dimensions =
  (pos1 ← scan_while isspace (S (length buffer)) buffer pos;
   if deref buffer pos1 =? 0 then Some dimensions
   else
     pos2 ← scan_while in_token (S (length buffer)) buffer pos1;
     if negb (deref buffer pos2 =? 0)
     then count_dimensions fuel buffer pos2 (S dimensions)
     else Some (S dimensions)).
Proof. reflexivity. Qed.

(** The sniffer loop returns, and counts the tokens of the line. *)
Lemma count_dimensions_spec : forall fuel buffer pos dimensions,
  (length buffer - pos < fuel)%nat ->
  count_dimensions fuel buffer pos dimensions =
  Some (dimensions + length (tokens (string_at buffer pos)))%nat.
Proof.
  induction fuel as [|fuel IH]; intros buffer pos dimensions Hfuel; [lia|].
  rewrite count_dimensions_S.
  destruct (token_step buffer pos) as (pos1 & -> & Hle & [(Hz & Ht & _)|[Hnz Hstep]]);
    cbn [mbind option_bind].
  - rewrite Hz, Ht. simpl. f_equal. lia.
  - destruct Hstep as (pos2 & w & -> & Hlt & Ht & _). cbn [mbind option_bind].
    destruct (Z.eqb_spec (deref buffer pos1) 0) as [|_]; [contradiction|].
    rewrite Ht. destruct (Z.eqb_spec (deref buffer pos2) 0) as [Hz2|Hnz2]; simpl.
    + rewrite (tokens_end _ _ Hz2). simpl. f_equal. lia.
    + pose proof (deref_nonzero_lt _ _ Hnz). rewrite IH by lia. f_equal. lia.
Qed.

Lemma line_dimensions_spec buffer line :
  line_dimensions buffer line = Some (length (tokens (string_at buffer line))).
Proof. unfold line_dimensions. rewrite count_dimensions_spec by lia. reflexivity. Qed.

End Tokens.

(** C6. The Dimensionality Sniffer returns the number of
    whitespace-delimited tokens of the line it is given: 3 on
    "1.0 2.0 3.0", 0 on a line of white space only (as on "   "), and 0 on
    the empty line. *)
Theorem line_dimensions_counts_tokens :
  (forall buffer line,
     line_dimensions buffer line = Some (length (tokens (string_at buffer line)))) /\
  line_dimensions (bytes "1.0 2.0 3.0") 0 = Some 3%nat /\
  (forall line, Forall (fun c => isspace c = true) line ->
     line_dimensions line 0 = Some 0%nat) /\
  line_dimensions (bytes "   ") 0 = Some 0%nat /\
  line_dimensions (bytes "") 0 = Some 0%nat.
Proof.
  split; [exact line_dimensions_spec|]. split; [reflexivity|].
  split; [|split; reflexivity].
  intros line H. rewrite line_dimensions_spec. unfold string_at. rewrite drop_0.
  rewrite c_str_no_zero.
  - unfold tokens. rewrite (nonempty_fields_all_sep isspace line H). reflexivity.
  - eapply Forall_impl; [exact H|]. intros c Hc ->. discriminate.
Qed.

Lemma line_dimensions_counts_tokens_witness :
  line_dimensions [32; 9; 32] 0 = Some 0%nat.
Proof.
  apply (proj1 (proj2 (proj2 line_dimensions_counts_tokens))).
  repeat constructor.
Defined.

(** ** The vector parser *)

Section Stores.

Lemma vector_length_store obj index value :
  length (vector (store obj index value)) = length (vector obj).
Proof.
  unfold store. destruct (_ <? _)%nat; simpl; [apply length_insert|reflexivity].
Qed.

Lemma vector_length_store_from values : forall obj dimension,
  length (vector (store_from obj dimension values)) = length (vector obj).
Proof.
  induction values as [|value values IH]; intros obj dimension; [reflexivity|].
  simpl. rewrite IH. apply vector_length_store.
Qed.

(** The indices written after the end of the array: every index from
    the declared length on, in increasing order. *)
Lemma beyond_store_from values : forall obj dimension,
  fst <$> beyond (store_from obj dimension values) =
  (fst <$> beyond obj) ++
  seq (Nat.max dimension (length (vector obj)))
      (dimension + length values - Nat.max dimension (length (vector obj))).
Proof.
  induction values as [|value values IH]; intros obj dimension.
  - simpl. replace (dimension + 0 - _)%nat with O by lia. simpl.
    rewrite app_nil_r. reflexivity.
  - change (store_from obj dimension (value :: values))
      with (store_from (store obj dimension value) (S dimension) values).
    change (length (value :: values)) with (S (length values)).
    rewrite IH, vector_length_store.
    unfold store. destruct (Nat.ltb_spec dimension (length (vector obj))) as [Hlt|Hge];
      cbn [beyond vector].
    + f_equal. f_equal; lia.
    + rewrite fmap_app, <- app_assoc. f_equal.
      rewrite !Nat.max_l by lia.
      replace (dimension + S (length values) - dimension)%nat
        with (S (length values)) by lia.
      replace (S dimension + length values - S dimension)%nat
        with (length values) by lia.
      reflexivity.
Qed.

End Stores.

Section Parser.
Variable atof : list Z -> spec_float.

Lemma parse_vector_S fuel buffer pos objectionable dimension :
  parse_vector atof (S fuel) buffer pos objectionable dimension =
  (pos1 ← scan_while isspace (S (length buffer)) buffer pos;
   if deref buffer pos1 =? 0 then Some objectionable
   else
     pos2 ← scan_while in_token (S (length buffer)) buffer pos1;
     if negb (deref buffer pos2 =? 0)
     then parse_vector atof fuel buffer pos2
            (store objectionable dimension (float_of_double (atof (string_at buffer pos1))))
            (S dimension)
     else Some (store objectionable dimension
                  (float_of_double (atof (string_at buffer pos1))))).
Proof. reflexivity. Qed.

(** The parser loop returns, and it has stored one value per token of the
    line, the float that [atof] reads at the start of the token, at
    consecutive indices from [dimension] on, with no test of the index
    against the length of the array. *)
Lemma parse_vector_spec : forall fuel buffer pos objectionable dimension,
  (length buffer - pos < fuel)%nat ->
  exists values,
    values = (fun tail => float_of_double (atof tail)) <$> token_tails (string_at buffer pos) /\
    length values = length (tokens (string_at buffer pos)) /\
    parse_vector atof fuel buffer pos objectionable dimension =
    Some (store_from objectionable dimension values).
Proof.
  induction fuel as [|fuel IH]; intros buffer pos obj dimension Hfuel; [lia|].
  rewrite parse_vector_S.
  destruct (token_step buffer pos) as (pos1 & -> & Hle & [(Hz & Ht & Htails)|[Hnz Hstep]]);
    cbn [mbind option_bind].
  - rewrite Hz, Ht, Htails. exists []. repeat split.
  - destruct Hstep as (pos2 & w & -> & Hlt & Ht & Htails). cbn [mbind option_bind].
    destruct (Z.eqb_spec (deref buffer pos1) 0) as [|_]; [contradiction|].
    rewrite Ht, Htails. set (value := float_of_double (atof (string_at buffer pos1))).
    destruct (Z.eqb_spec (deref buffer pos2) 0) as [Hz2|Hnz2]; simpl negb; cbv iota.
    + exists [value]. rewrite (tokens_end _ _ Hz2), (token_tails_end _ _ Hz2).
      repeat split.
    + pose proof (deref_nonzero_lt _ _ Hnz).
      destruct (IH buffer pos2 (store obj dimension value) (S dimension))
        as (values & Hvalues & Hlen & ->); [lia|].
      exists (value :: values). simpl. rewrite Hlen, Hvalues. repeat split.
Qed.

Lemma parse_line_spec buffer dimensions line :
  exists values,
    values = (fun tail => float_of_double (atof tail)) <$> token_tails (string_at buffer line) /\
    length values = length (tokens (string_at buffer line)) /\
    parse_line atof buffer dimensions line =
    Some (store_from (new_object dimensions) 0 values).
Proof. unfold parse_line. apply parse_vector_spec. lia. Qed.

Lemma parse_lines_total buffer dimensions lines :
  exists vector_list,
    mapM (parse_line atof buffer dimensions) lines = Some vector_list /\
    length vector_list = length lines.
Proof.
  assert (H : is_Some (mapM (parse_line atof buffer dimensions) lines)).
  { apply mapM_is_Some, Forall_forall. intros line _. simpl.
    destruct (parse_line_spec buffer dimensions line) as (values & _ & _ & ->). eauto. }
  destruct H as [vector_list H]. exists vector_list. split; [exact H|].
  symmetry. eapply length_mapM, H.
Qed.

End Parser.

(** C7. With three dimensions and the line "1.5 -2.25 0" the Vector Parser
    fills the slot with the components 1.5, -2.25 and 0.0, in this order,
    and writes nothing else. *)
Theorem parse_line_example :
  parse_line decimal_atof (bytes "1.5 -2.25 0") 3 0 =
  Some (Build_object [Some (binary32 3 (-1)); Some (binary32 (-9) (-2)); Some (binary32 0 0)] [])
  /\ binary32 3 (-1) = S754_finite false 12582912 (-23)
  /\ binary32 (-9) (-2) = S754_finite true 9437184 (-22)
  /\ binary32 0 0 = S754_zero false.
Proof. repeat split; vm_compute; reflexivity. Qed.

(** C8. The parser loop has no test against the dimensionality: on every
    line with more tokens than [dimensions] it stores after the end of the
    array, at each index from [dimensions] up to the number of tokens; so
    there is a line on which it writes at an index that is not below
    [dimensions]. *)
Theorem parse_line_overrun atof buffer dimensions line :
  (dimensions < length (tokens (string_at buffer line)))%nat ->
  exists obj,
    parse_line atof buffer dimensions line = Some obj /\
    length (vector obj) = dimensions /\
    fst <$> beyond obj =
      seq dimensions (length (tokens (string_at buffer line)) - dimensions) /\
    exists index value, (index, value) ∈ beyond obj /\ (dimensions <= index)%nat.
Proof.
  intros Hmore.
  destruct (parse_line_spec atof buffer dimensions line) as (values & _ & Hlen & Hrun).
  exists (store_from (new_object dimensions) 0 values).
  split; [exact Hrun|].
  assert (Hvec : length (vector (new_object dimensions)) = dimensions)
    by apply length_replicate.
  split; [rewrite vector_length_store_from; exact Hvec|].
  assert (Hidx : fst <$> beyond (store_from (new_object dimensions) 0 values) =
                 seq dimensions (length (tokens (string_at buffer line)) - dimensions)).
  { rewrite beyond_store_from, Hvec, Hlen. simpl. f_equal; lia. }
  split; [exact Hidx|].
  destruct (length (tokens (string_at buffer line)) - dimensions)%nat as [|n] eqn:E; [lia|].
  destruct (beyond (store_from (new_object dimensions) 0 values)) as [|[index value] rest];
    [discriminate|].
  simpl in Hidx. injection Hidx as Hindex _.
  exists index, value. split; [constructor|lia].
Qed.

Lemma parse_line_overrun_witness :
  exists obj,
    parse_line decimal_atof (bytes "1 2 3") 2 0 = Some obj /\
    length (vector obj) = 2%nat /\
    fst <$> beyond obj = [2%nat] /\
    exists index value, (index, value) ∈ beyond obj /\ (2 <= index)%nat.
Proof.
  apply (parse_line_overrun decimal_atof (bytes "1 2 3") 2 0).
  vm_compute. lia.
Defined.

(** ** read_entire_file and build *)

Section Build.
Variable atof : list Z -> spec_float.
Variable fs : file_system.

(** The two results the documentation of read_entire_file promises
    together: no byte in the buffer and a length of zero. They come
    together when the file cannot be opened, when fstat fails and when
    the size is zero. *)
Lemma read_entire_file_nothing filename :
  fs filename = Missing \/
  (exists data, fs filename = Present None data) \/
  (exists data, fs filename = Present (Some O) data) ->
  exists io, read_entire_file fs filename [] = (O, [], io) /\
             Forall (fun e => writes_output e = false) io.
Proof.
  unfold read_entire_file.
  intros [->|[[data ->]|[data ->]]]; eexists; (split; [reflexivity|]);
    repeat constructor.
Qed.

Lemma read_entire_file_io filename into :
  Forall (fun e => writes_output e = false) (read_entire_file fs filename into).2.
Proof.
  unfold read_entire_file.
  destruct (fs filename) as [|[st_size|] [data|]]; simpl;
    try destruct (negb _); simpl; repeat constructor.
Qed.

(** A length that is not zero comes from a file that was opened and
    closed. *)
Lemma read_entire_file_some filename into n contents io :
  read_entire_file fs filename into = (n, contents, io) -> n <> O ->
  io = [Fopen filename; Fclose filename].
Proof.
  unfold read_entire_file.
  destruct (fs filename) as [|[st_size|] [data|]]; simpl;
    try destruct (negb _); intros [= <- <- <-]; intros H;
    reflexivity || contradiction.
Qed.

Lemma fread_into_all data : fread_into data (resize [] (length data)) = data.
Proof.
  unfold fread_into, resize. rewrite take_nil, app_nil_l, Nat.sub_0_r.
  rewrite length_replicate, drop_ge by (rewrite length_replicate; lia).
  rewrite app_nil_r. apply take_ge. lia.
Qed.

Lemma read_entire_file_present filename data :
  fs filename = Present (Some (length data)) (Some data) -> data <> [] ->
  read_entire_file fs filename [] =
  (length data, data, [Fopen filename; Fclose filename]).
Proof.
  intros E Hne. unfold read_entire_file. rewrite E.
  destruct data as [|c data]; [contradiction|].
  change (negb (length (c :: data) =? 0)%nat) with true. cbv iota.
  rewrite fread_into_all. reflexivity.
Qed.

Lemma printf_cannot_read infilename :
  printf (cannot_read_text infilename) = 28 + Z.of_nat (String.length infilename).
Proof.
  unfold printf, cannot_read_text.
  assert (H : forall s t, String.length (s +:+ t) = (String.length s + String.length t)%nat).
  { induction s as [|a s IH]; intros t; simpl; [reflexivity|]. rewrite IH. reflexivity. }
  rewrite !H. simpl. lia.
Qed.

(** The status is the value of printf; it can be a multiple of 256, as for
    a name of 228 characters, of which a host that keeps the low 8 bits of
    the status makes 0. *)
Lemma printf_cannot_read_256 :
  printf (cannot_read_text (String.string_of_list_ascii (replicate 228 (Ascii.ascii_of_nat 97)))) = 256.
Proof. rewrite printf_cannot_read. reflexivity. Qed.

Variables (infilename outfilename : string) (tree_order : Z).

Lemma build_rejects_order :
  tree_order < 2 \/ 1000000 < tree_order ->
  build atof fs infilename tree_order outfilename =
  Some ([Print tree_order_text], Exited 43).
Proof.
  intros H. unfold build.
  destruct (Z.ltb_spec tree_order 2); [reflexivity|].
  destruct (Z.gtb_spec tree_order 1000000); [reflexivity|lia].
Qed.

Hypothesis order_ok : 2 <= tree_order <= 1000000.

Lemma build_order_ok :
  build atof fs infilename tree_order outfilename =
  let '(bytes, file_contents, io) := read_entire_file fs infilename [] in
  if (bytes <=? 0)%nat then
    Some (io ++ [Print (cannot_read_text infilename)],
          Exited (printf (cannot_read_text infilename)))
  else
    '(lines, file_contents) ← buffer_to_list Vector.empty file_contents;
    match elems lines !! 0%nat with
    | None => Some (io, Undefined)
    | Some first =>
        dimensions ← line_dimensions file_contents first;
        vector_list ← mapM (parse_line atof file_contents dimensions) (elems lines);
        Some (io ++ [TreeNew tree_order dimensions]
                 ++ (const NewObject <$> elems lines)
                 ++ (TreePushBack <$> vector_list)
                 ++ [OfstreamOpen outfilename; OfstreamWrite; OfstreamClose],
              Returned 0)
    end.
Proof.
  unfold build.
  destruct (Z.ltb_spec tree_order 2); [lia|].
  destruct (Z.gtb_spec tree_order 1000000); [lia|]. reflexivity.
Qed.

Lemma build_cannot_read contents io :
  read_entire_file fs infilename [] = (O, contents, io) ->
  build atof fs infilename tree_order outfilename =
  Some (io ++ [Print (cannot_read_text infilename)],
        Exited (printf (cannot_read_text infilename))).
Proof. intros E. rewrite build_order_ok, E. reflexivity. Qed.

(** What build does once it holds the bytes of the file. *)
Lemma build_reads bytes contents io :
  read_entire_file fs infilename [] = (bytes, contents, io) -> bytes <> O ->
  exists lines buffer,
    buffer_to_list Vector.empty contents = Some (lines, buffer) /\
    string_at buffer <$> elems lines = nonblank_lines (c_str contents) /\
    match elems lines with
    | [] => build atof fs infilename tree_order outfilename = Some (io, Undefined)
    | first :: _ =>
        exists vector_list,
          length vector_list = length (elems lines) /\
          build atof fs infilename tree_order outfilename =
          Some (io ++ [TreeNew tree_order (length (tokens (string_at buffer first)))]
                   ++ (const NewObject <$> elems lines)
                   ++ (TreePushBack <$> vector_list)
                   ++ [OfstreamOpen outfilename; OfstreamWrite; OfstreamClose],
                Returned 0)
    end.
Proof.
  intros E Hbytes. rewrite build_order_ok, E.
  destruct (Nat.leb_spec bytes 0); [lia|].
  destruct (buffer_to_list_spec Vector.empty contents) as (lines & buffer & -> & Hl & _).
  exists lines, buffer. split; [reflexivity|]. split; [exact Hl|].
  cbn [mbind option_bind].
  destruct (elems lines) as [|first rest] eqn:El; [reflexivity|].
  cbn [lookup list_lookup]. rewrite line_dimensions_spec. cbn [mbind option_bind].
  destruct (parse_lines_total atof buffer (length (tokens (string_at buffer first)))
              (first :: rest)) as (vector_list & -> & Hlen).
  exists vector_list. split; [exact Hlen|]. reflexivity.
Qed.

End Build.

(** Every run of build that reaches the output file has gone through the
    whole sequence and returns 0; every other run stops at the read of
    lines[0] or by a call of exit, whose argument (the value of printf) is
    not zero. *)
Lemma build_outcome atof fs infilename tree_order outfilename :
  exists trace out,
    build atof fs infilename tree_order outfilename = Some (trace, out) /\
    ((out = Returned 0 /\
      exists dimensions (lines : list nat) vector_list,
        lines <> [] /\ length vector_list = length lines /\
        trace = [Fopen infilename; Fclose infilename; TreeNew tree_order dimensions]
                ++ (const NewObject <$> lines)
                ++ (TreePushBack <$> vector_list)
                ++ [OfstreamOpen outfilename; OfstreamWrite; OfstreamClose]) \/
     ((out = Undefined \/ exists status, out = Exited status /\ status <> 0) /\
      Forall (fun e => writes_output e = false) trace)).
Proof.
  destruct (Z.lt_ge_cases tree_order 2) as [Hlow|Hlow].
  { rewrite build_rejects_order by lia. do 2 eexists. split; [reflexivity|].
    right. split; [right; eexists; split; [reflexivity|lia]|repeat constructor]. }
  destruct (Z.lt_ge_cases 1000000 tree_order) as [Hhigh|Hhigh].
  { rewrite build_rejects_order by lia. do 2 eexists. split; [reflexivity|].
    right. split; [right; eexists; split; [reflexivity|lia]|repeat constructor]. }
  assert (Hok : 2 <= tree_order <= 1000000) by lia.
  pose proof (read_entire_file_io fs infilename []) as Hio.
  destruct (read_entire_file fs infilename []) as [[bytes contents] io] eqn:E.
  simpl in Hio. destruct bytes as [|n].
  - rewrite (build_cannot_read atof fs infilename outfilename tree_order Hok _ _ E).
    do 2 eexists. split; [reflexivity|]. right. split.
    + right. eexists. split; [reflexivity|]. rewrite printf_cannot_read. lia.
    + apply Forall_app. split; [exact Hio|repeat constructor].
  - destruct (build_reads atof fs infilename outfilename tree_order Hok _ _ _ E)
      as (lines & buffer & _ & _ & Hbuild); [lia|].
    destruct (elems lines) as [|first rest] eqn:El.
    + rewrite Hbuild. do 2 eexists. split; [reflexivity|]. right.
      split; [left; reflexivity|exact Hio].
    + destruct Hbuild as (vector_list & Hlen & ->).
      do 2 eexists. split; [reflexivity|]. left. split; [reflexivity|].
      exists (length (tokens (string_at buffer first))), (first :: rest), vector_list.
      split; [discriminate|]. split; [exact Hlen|].
      rewrite (read_entire_file_some fs _ _ _ _ _ E) by lia. reflexivity.
Qed.

(** C9, where the code departs from it. An input path that opens but
    cannot be read (a directory: fstat reports 4096 bytes and fread fails)
    is not rejected: read_entire_file returns 4096 with an empty buffer,
    build prints no diagnostic and never calls exit, and it goes on to read
    lines[0] of an empty vector. And for a path that does not exist and has
    228 characters, build calls exit with the value of printf, 256, of
    which a host that keeps the low 8 bits of the status reports 0. *)
Theorem build_unreadable_input_not_rejected :
  read_entire_file (fun _ => Present (Some 4096%nat) None) "vectors" [] =
    (4096%nat, [], [Fopen "vectors"; Fclose "vectors"]) /\
  build decimal_atof (fun _ => Present (Some 4096%nat) None) "vectors" 2 "tree.out" =
    Some ([Fopen "vectors"; Fclose "vectors"], Undefined) /\
  build decimal_atof (fun _ => Missing) long_name 2 "tree.out" =
    Some ([Fopen long_name; Print (cannot_read_text long_name)], Exited 256) /\
  wait_status 256 = 0.
Proof. repeat split; vm_compute; reflexivity. Qed.

(** C10. When the file is not empty and holds line terminators only, the
    list of lines that buffer_to_list leaves is empty, and build, which
    reads lines[0] with no test, reads outside the vector. More generally,
    on a file that was read build makes this read outside the vector exactly
    when the text has no non-blank line. *)
Theorem build_needs_a_line atof fs infilename tree_order outfilename contents :
  contents <> [] ->
  2 <= tree_order <= 1000000 ->
  fs infilename = Present (Some (length contents)) (Some contents) ->
  (Forall (fun c => is_terminator c = true) contents ->
   (exists lines buffer,
      buffer_to_list Vector.empty contents = Some (lines, buffer) /\
      elems lines = [] /\ elems lines !! 0%nat = None) /\
   build atof fs infilename tree_order outfilename =
     Some ([Fopen infilename; Fclose infilename], Undefined)) /\
  ((exists trace, build atof fs infilename tree_order outfilename = Some (trace, Undefined))
   <-> nonblank_lines (c_str contents) = []).
Proof.
  intros Hne Hok Hfs.
  pose proof (read_entire_file_present fs infilename contents Hfs Hne) as E.
  destruct (build_reads atof fs infilename outfilename tree_order Hok _ _ _ E)
    as (lines & buffer & Hsplit & Hlines & Hbuild).
  { destruct contents; [contradiction|discriminate]. }
  assert (Hiff : elems lines = [] <-> nonblank_lines (c_str contents) = []).
  { rewrite <- Hlines. destruct (elems lines); simpl; split; intros; congruence. }
  split.
  - intros Hterm.
    assert (Hnone : elems lines = []).
    { apply Hiff. rewrite c_str_no_zero.
      - apply nonempty_fields_all_sep. exact Hterm.
      - eapply Forall_impl; [exact Hterm|]. apply terminator_nonzero. }
    rewrite Hnone in Hbuild. split; [|exact Hbuild].
    exists lines, buffer. rewrite Hnone. repeat split. exact Hsplit.
  - rewrite <- Hiff. destruct (elems lines) as [|first rest].
    + split; [reflexivity|]. intros _. eexists. exact Hbuild.
    + destruct Hbuild as (vector_list & _ & ->).
      split; [intros [trace H]; discriminate|discriminate].
Qed.

Lemma build_needs_a_line_witness :
  build decimal_atof (fun _ => Present (Some 3%nat) (Some [LF; CR; LF])) "vectors.txt" 2
    "tree.out" =
  Some ([Fopen "vectors.txt"; Fclose "vectors.txt"], Undefined).
Proof.
  refine (proj2 (proj1 (build_needs_a_line decimal_atof
                  (fun _ => Present (Some 3%nat) (Some [LF; CR; LF]))
                  "vectors.txt" 2 "tree.out" [LF; CR; LF] _ _ _) _)).
  - discriminate.
  - lia.
  - reflexivity.
  - repeat constructor.
Defined.

Lemma build_passes_validation atof fs infilename tree_order outfilename :
  2 <= tree_order <= 1000000 ->
  passes_validation (build atof fs infilename tree_order outfilename) infilename.
Proof.
  intros Hok. unfold passes_validation.
  assert (Hio : exists rest, (read_entire_file fs infilename []).2 = Fopen infilename :: rest /\
                             Forall (fun e => e <> Print tree_order_text) rest).
  { unfold read_entire_file.
    destruct (fs infilename) as [|[st_size|] [data|]]; simpl;
      try destruct (negb _); simpl; eexists; (split; [reflexivity|]);
      repeat constructor; discriminate. }
  destruct Hio as (rest & Hio & Hrest).
  destruct (read_entire_file fs infilename []) as [[bytes contents] io] eqn:E.
  simpl in Hio. subst io. destruct bytes as [|n].
  - rewrite (build_cannot_read atof fs infilename outfilename tree_order Hok _ _ E).
    do 2 eexists. split; [reflexivity|].
    apply Forall_app. split; [exact Hrest|]. repeat constructor. discriminate.
  - destruct (build_reads atof fs infilename outfilename tree_order Hok _ _ _ E)
      as (lines & buffer & _ & _ & Hbuild); [lia|].
    destruct (elems lines) as [|first others].
    + rewrite Hbuild. do 2 eexists. split; [reflexivity|exact Hrest].
    + destruct Hbuild as (vector_list & _ & ->).
      do 2 eexists. split; [reflexivity|].
      repeat (apply Forall_app; split); try exact Hrest;
        try (apply Forall_fmap, Forall_forall; intros ? _; discriminate);
        repeat constructor; discriminate.
Qed.

(** C5. build rejects the tree orders 1 and 1,000,001 (as every order below
    2 or above 1,000,000): it prints the diagnostic and calls exit with its
    length, 43, and makes no other call, so no file is read. It accepts the
    tree orders 2 and 1,000,000 (as every order between them): the next
    thing it does is to open the input file. *)
Theorem build_tree_order_bounds atof fs infilename outfilename :
  build atof fs infilename 1 outfilename = Some ([Print tree_order_text], Exited 43) /\
  build atof fs infilename 1000001 outfilename = Some ([Print tree_order_text], Exited 43) /\
  (forall tree_order, tree_order < 2 \/ 1000000 < tree_order ->
     build atof fs infilename tree_order outfilename =
     Some ([Print tree_order_text], Exited 43)) /\
  passes_validation (build atof fs infilename 2 outfilename) infilename /\
  passes_validation (build atof fs infilename 1000000 outfilename) infilename /\
  (forall tree_order, 2 <= tree_order <= 1000000 ->
     passes_validation (build atof fs infilename tree_order outfilename) infilename).
Proof.
  split; [reflexivity|]. split; [reflexivity|].
  split; [intros tree_order H; apply build_rejects_order, H|].
  split; [apply build_passes_validation; lia|].
  split; [apply build_passes_validation; lia|].
  intros tree_order H. apply build_passes_validation, H.
Qed.

Lemma build_tree_order_bounds_witness :
  build decimal_atof (fun _ => Missing) "vectors.txt" 0 "tree.out" =
    Some ([Print tree_order_text], Exited 43) /\
  passes_validation (build decimal_atof (fun _ => Missing) "vectors.txt" 3 "tree.out")
    "vectors.txt".
Proof.
  split.
  - apply (proj1 (proj2 (proj2 (build_tree_order_bounds decimal_atof (fun _ => Missing)
                                  "vectors.txt" "tree.out")))).
    left. lia.
  - apply (proj2 (proj2 (proj2 (proj2 (proj2
             (build_tree_order_bounds decimal_atof (fun _ => Missing)
                "vectors.txt" "tree.out")))))).
    lia.
Defined.

(** C2, where the code departs from it. When fread does not deliver the
    bytes (here: a file of 3 bytes), read_entire_file empties the buffer but
    still returns the length of the file, 3 and not 0; build then sees a
    length that is not zero, prints no diagnostic and does not exit: it goes
    on with the empty buffer and reads lines[0] of an empty vector. *)
Theorem read_entire_file_short_read :
  read_entire_file (fun _ => Present (Some 3%nat) None) "vectors.txt" [] =
    (3%nat, [], [Fopen "vectors.txt"; Fclose "vectors.txt"]) /\
  build decimal_atof (fun _ => Present (Some 3%nat) None) "vectors.txt" 2 "tree.out" =
    Some ([Fopen "vectors.txt"; Fclose "vectors.txt"], Undefined).
Proof. split; reflexivity. Qed.

(** C3, where the code departs from it. The first walk counts the runs of
    terminators, not the lines. On a\nb it counts 1 and the second walk
    pushes 2 pointers, so the vector, reserved for 1, has to grow once; on
    \na\n it counts 2 and the second walk pushes 1. *)
Theorem count_lines_is_not_the_number_pushed :
  count_lines 4 (bytes "a" ++ [LF] ++ bytes "b") 0 0 = Some 1%nat /\
  buffer_to_list Vector.empty (bytes "a" ++ [LF] ++ bytes "b") =
    Some (Build_vector [0%nat; 2%nat] 2 1, [97; 0; 98]) /\
  count_lines 4 ([LF] ++ bytes "a" ++ [LF]) 0 0 = Some 2%nat /\
  buffer_to_list Vector.empty ([LF] ++ bytes "a" ++ [LF]) =
    Some (Build_vector [1%nat] 2 0, [0; 97; 0]).
Proof. repeat split; reflexivity. Qed.

(** ** main *)

Section Main.
Variable atof : list Z -> spec_float.
Variable atoi : string -> Z.
Variable fs : file_system.

Lemma main_usage argv :
  length argv <> 2%nat ->
  (length argv = 5%nat -> arg argv 1 <> "unittest" /\ arg argv 1 <> "build") ->
  main atof atoi fs argv = usage (arg argv 0).
Proof.
  intros H2 H5. unfold main.
  destruct (Nat.eqb_spec (length argv) 5) as [E5|_]; simpl.
  - destruct (H5 E5) as [Hu Hb]. unfold strcmp_eq.
    apply String.eqb_neq in Hu, Hb. rewrite Hu, Hb. reflexivity.
  - destruct (Nat.eqb_spec (length argv) 2); [contradiction|reflexivity].
Qed.

End Main.

(** C4 as it is written fails: with the single argument help, which is not
    unittest, main runs the unit tests and prints no usage text. *)
Lemma main_one_argument_runs_unittest :
  main decimal_atof (fun _ => 0) (fun _ => Missing) ["k_tree"; "help"] =
    Some ([UnittestObject; UnittestTree], Returned 0) /\
  main decimal_atof (fun _ => 0) (fun _ => Missing) ["k_tree"; "help"] <> usage "k_tree".
Proof. split; [reflexivity|discriminate]. Qed.

(** C4, amended. With four arguments, the keyword build runs a build and
    the keyword unittest runs the unit tests; with a single argument,
    whatever it is, main runs the unit tests; with any other number of
    arguments, or four arguments and another keyword, main prints the usage
    text and returns 0. *)
Theorem main_dispatch atof atoi fs :
  (forall exename infile order outfile,
     main atof atoi fs [exename; "build"; infile; order; outfile] =
     build atof fs infile (size_t_of_int (atoi order)) outfile) /\
  (forall exename infile order outfile,
     main atof atoi fs [exename; "unittest"; infile; order; outfile] = unittest) /\
  (forall exename argument, main atof atoi fs [exename; argument] = unittest) /\
  (forall argv,
     length argv <> 2%nat ->
     (length argv = 5%nat -> arg argv 1 <> "unittest" /\ arg argv 1 <> "build") ->
     main atof atoi fs argv = usage (arg argv 0)) /\
  (forall exename, usage exename = Some ([Print (usage_text exename)], Returned 0)) /\
  unittest = Some ([UnittestObject; UnittestTree], Returned 0).
Proof.
  split; [reflexivity|]. split; [reflexivity|]. split; [reflexivity|].
  split; [apply main_usage|]. split; reflexivity.
Qed.

Lemma main_dispatch_witness :
  main decimal_atof (fun _ => 0) (fun _ => Missing) ["k_tree"; "load"; "in"; "8"; "out"] =
    usage "k_tree" /\
  main decimal_atof (fun _ => 0) (fun _ => Missing) ["k_tree"] = usage "k_tree".
Proof.
  split.
  - apply (proj1 (proj2 (proj2 (proj2
             (main_dispatch decimal_atof (fun _ => 0) (fun _ => Missing)))))
             ["k_tree"; "load"; "in"; "8"; "out"]).
    + simpl. lia.
    + intros _. split; discriminate.
  - apply (proj1 (proj2 (proj2 (proj2
             (main_dispatch decimal_atof (fun _ => 0) (fun _ => Missing)))))
             ["k_tree"]).
    + simpl. lia.
    + simpl. discriminate.
Defined.

(** * More on the pipeline *)

(** ** buffer_to_list, exactly *)

Section SplitterExact.

Lemma elems_push_all {A} (l : list A) : forall v, elems (push_all v l) = elems v ++ l.
Proof.
  unfold push_all. induction l as [|x l IH]; intros v; simpl.
  - rewrite app_nil_r. reflexivity.
  - rewrite IH, elems_push_back, <- app_assoc. reflexivity.
Qed.

Lemma starts_from_skip sep pre : forall pos t,
  Forall (fun c => sep c = true) pre ->
  starts_from sep true pos (pre ++ t) = starts_from sep true (pos + length pre) t.
Proof.
  induction pre as [|c pre IH]; intros pos t H; simpl.
  - rewrite Nat.add_0_r. reflexivity.
  - inversion H as [|? ? Hc Hpre]; subst. rewrite Hc, IH by exact Hpre.
    f_equal. lia.
Qed.

(** After the run of terminators the flag does not matter any more. *)
Lemma zero_heads_run s :
  zero_heads true s =
  take (run_length is_terminator s) s ++
  zero_heads false (drop (run_length is_terminator s) s).
Proof.
  induction s as [|c s IH]; [reflexivity|]. simpl.
  destruct (Z.eqb_spec c 0) as [->|Hc]; [reflexivity|].
  destruct (is_terminator c) eqn:Ht; simpl.
  - rewrite IH. reflexivity.
  - destruct (Z.eqb_spec c 0); [contradiction|]. rewrite Ht. reflexivity.
Qed.

Lemma starts_from_c_str_stop fresh pos s :
  default 0 (head s) = 0 -> starts_from is_terminator fresh pos (c_str s) = [].
Proof. destruct s as [|c s]; simpl; [reflexivity|]. intros ->. reflexivity. Qed.

(** The second walk from [pos], as a function of the bytes from [pos] on. *)
Lemma split_lines_exact : forall fuel v buffer pos,
  (length buffer - pos < fuel)%nat ->
  split_lines fuel v buffer pos =
  Some (push_all v (starts_from is_terminator false pos (c_str (drop pos buffer))),
        take pos buffer ++ zero_heads false (drop pos buffer)).
Proof.
  induction fuel as [|fuel IH]; intros v buffer pos Hfuel; [lia|].
  rewrite split_lines_S. destruct (drop pos buffer) as [|c s] eqn:E.
  { rewrite (deref_nil _ _ E). simpl. rewrite <- E, take_drop. reflexivity. }
  rewrite (deref_cons _ _ _ _ E).
  destruct (drop_cons_inv _ _ _ _ E) as (L & E' & Hlt).
  destruct (Z.eqb_spec c 0) as [->|Hc].
  { simpl. rewrite <- E, take_drop. reflexivity. }
  assert (Hcstr : c_str (c :: s) = c :: c_str s).
  { simpl. destruct (Z.eqb_spec c 0); [contradiction|reflexivity]. }
  assert (Hzh : zero_heads false (c :: s) =
                if is_terminator c then 0 :: zero_heads true s else c :: zero_heads false s).
  { simpl. destruct (Z.eqb_spec c 0); [contradiction|reflexivity]. }
  rewrite Hcstr, Hzh.
  destruct (is_terminator c) eqn:Ht.
  - set (buffer1 := <[pos := 0]> buffer).
    assert (Hlen1 : length buffer1 = length buffer) by apply length_insert.
    assert (E1 : drop (S pos) buffer1 = s).
    { unfold buffer1. rewrite drop_insert_lt by lia. exact E'. }
    rewrite (scan_while_run is_terminator terminator_zero) by lia.
    rewrite E1. cbn [mbind option_bind].
    set (k := run_length is_terminator s).
    pose proof (run_length_le is_terminator s) as Hk. fold k in Hk.
    assert (Hs : length s = (length buffer - S pos)%nat).
    { rewrite <- E', length_drop. reflexivity. }
    change (S pos + k)%nat with (S (pos + k)).
    assert (E2 : drop (S (pos + k)) buffer1 = drop k s).
    { rewrite <- E1, drop_drop. reflexivity. }
    rewrite IH by lia. rewrite (deref_drop buffer1), E2.
    assert (Htake : take (S (pos + k)) buffer1 = take pos buffer ++ 0 :: take k s).
    { rewrite <- (take_drop (S pos) buffer1) at 1. rewrite E1.
      change (S (pos + k)) with (S pos + k)%nat.
      rewrite take_app_add' by (rewrite length_take; lia).
      unfold buffer1.
      rewrite (take_S_r _ pos 0) by (apply list_lookup_insert_eq; exact Hlt).
      rewrite take_insert_ge by lia. rewrite <- app_assoc. reflexivity. }
    rewrite Htake, <- app_assoc. simpl app.
    rewrite (zero_heads_run s). fold k.
    match goal with |- Some (?a, ?b) = Some (?a', ?b) =>
      cut (a = a'); [intros ->; reflexivity|] end.
    simpl starts_from. rewrite Ht.
    rewrite (c_str_run is_terminator terminator_zero s). fold k.
    rewrite starts_from_skip by apply run_Forall.
    rewrite length_take, Nat.min_l by exact Hk.
    replace (S pos + k)%nat with (S (pos + k)) by lia.
    pose proof (run_stops is_terminator terminator_zero s) as Hstop. fold k in Hstop.
    destruct (drop k s) as [|c2 s2]; [reflexivity|].
    simpl in Hstop. simpl. destruct (c2 =? 0); [reflexivity|].
    simpl. rewrite Hstop. reflexivity.
  - rewrite IH by lia. rewrite E'. rewrite (take_S_r _ _ _ L), <- app_assoc.
    simpl. rewrite Ht. reflexivity.
Qed.

(** buffer_to_list as a function of the buffer: the vector is cleared,
    reserved for the number of terminator runs, and given the offsets at
    which the non-blank lines of the text start; the buffer has the head of
    each terminator run of the text set to zero. *)
Lemma buffer_to_list_exact line_list buffer :
  buffer_to_list line_list buffer =
  Some (push_all (Vector.reserve (Vector.clear line_list) (terminator_runs (c_str buffer)))
                 (starts_from is_terminator true 0 (c_str buffer)),
        zero_heads false buffer).
Proof.
  unfold buffer_to_list. rewrite count_lines_spec by lia.
  cbn [mbind option_bind]. unfold string_at. rewrite drop_0, Nat.add_0_l.
  rewrite split_lines_exact by lia. rewrite drop_0, take_0, app_nil_l.
  f_equal. f_equal. rewrite starts_line_in_line, deref_drop, drop_0.
  destruct buffer as [|c s]; [reflexivity|]. simpl.
  destruct (Z.eqb_spec c 0) as [->|Hc]; [reflexivity|].
  unfold in_line. destruct (Z.eqb_spec c 0); [contradiction|]. simpl.
  destruct (is_terminator c); reflexivity.
Qed.

End SplitterExact.

(** ** The pointers buffer_to_list leaves *)

Section Pointers.
Variable sep : Z -> bool.

Lemma starts_from_ge text : forall fresh pos,
  Forall (fun p => (pos <= p)%nat) (starts_from sep fresh pos text).
Proof.
  induction text as [|c text IH]; intros fresh pos; simpl; [constructor|].
  destruct (sep c).
  - eapply Forall_impl; [apply IH|]. simpl. intros; lia.
  - apply Forall_app. split.
    + destruct fresh; repeat constructor.
    + eapply Forall_impl; [apply IH|]. simpl. intros; lia.
Qed.

Lemma starts_from_sorted text : forall fresh pos,
  StronglySorted lt (starts_from sep fresh pos text).
Proof.
  induction text as [|c text IH]; intros fresh pos; simpl; [constructor|].
  destruct (sep c); [apply IH|].
  destruct fresh; simpl; [|apply IH].
  constructor; [apply IH|].
  eapply Forall_impl; [apply (starts_from_ge text false (S pos))|]. simpl. intros; lia.
Qed.

(** An offset is in the list exactly when a field starts there: the byte
    is no separator, and it is the first byte of a fresh text or the byte
    before it is a separator. *)
Lemma elem_of_starts_from text : forall fresh pos p,
  p ∈ starts_from sep fresh pos text <->
  exists i c, p = (pos + i)%nat /\ text !! i = Some c /\ sep c = false /\
              match i with
              | O => fresh = true
              | S j => exists d, text !! j = Some d /\ sep d = true
              end.
Proof.
  induction text as [|c text IH]; intros fresh pos p; simpl.
  { split; [intros H; inversion H|]. intros (i & c & _ & H & _). destruct i; discriminate. }
  destruct (sep c) eqn:Hc.
  - rewrite IH. split.
    + intros (i & c' & -> & Hi & Hc' & Hprev). exists (S i), c'.
      split; [lia|]. split; [exact Hi|]. split; [exact Hc'|].
      destruct i as [|j]; [exists c; split; [reflexivity|exact Hc]|exact Hprev].
    + intros (i & c' & -> & Hi & Hc' & Hprev).
      destruct i as [|i]; [simpl in Hi; congruence|].
      exists i, c'. split; [lia|]. split; [exact Hi|]. split; [exact Hc'|].
      destruct i as [|j]; [reflexivity|exact Hprev].
  - rewrite elem_of_app, IH. split.
    + intros [Hhere|(i & c' & -> & Hi & Hc' & Hprev)].
      * destruct fresh; [|inversion Hhere].
        apply list_elem_of_singleton in Hhere. subst p.
        exists O, c. split; [lia|]. repeat split. exact Hc.
      * destruct i as [|j]; [discriminate|].
        exists (S (S j)), c'. split; [lia|]. split; [exact Hi|]. split; [exact Hc'|].
        exact Hprev.
    + intros (i & c' & -> & Hi & Hc' & Hprev).
      destruct i as [|i].
      * left. subst fresh. rewrite Nat.add_0_r. constructor.
      * right. destruct i as [|j].
        { destruct Hprev as (d & Hd & Hsep). simpl in Hd. congruence. }
        exists (S j), c'. split; [lia|]. split; [exact Hi|]. split; [exact Hc'|].
        exact Hprev.
Qed.

End Pointers.

Section CString.

Lemma c_str_length_le s : (length (c_str s) <= length s)%nat.
Proof.
  induction s as [|c s IH]; simpl; [lia|]. destruct (c =? 0); simpl; lia.
Qed.

(** The C string is the start of the memory, up to the first zero. *)
Lemma c_str_lookup s : forall i c,
  c_str s !! i = Some c <-> (i < length (c_str s))%nat /\ s !! i = Some c.
Proof.
  induction s as [|x s IH]; intros i c; simpl.
  { split; [discriminate|]. intros [H _]. simpl in H. lia. }
  destruct (Z.eqb_spec x 0) as [->|Hx].
  { split; [discriminate|]. intros [H _]. simpl in H. lia. }
  destruct i as [|i]; simpl.
  - split; [intros H; split; [lia|exact H]|intros [_ H]; exact H].
  - rewrite IH. split; intros [H1 H2]; (split; [lia|exact H2]).
Qed.

Lemma c_str_deref s i :
  (i < length (c_str s))%nat -> c_str s !! i = Some (deref s i) /\ deref s i <> 0.
Proof.
  revert i. induction s as [|x s IH]; intros i Hi; simpl in *; [lia|].
  destruct (Z.eqb_spec x 0) as [->|Hx]; [simpl in Hi; lia|].
  destruct i as [|i]; simpl; [split; [reflexivity|exact Hx]|].
  apply IH. simpl in Hi. lia.
Qed.

Lemma c_str_nonzero s : Forall (fun c => c <> 0) (c_str s).
Proof.
  induction s as [|x s IH]; simpl; [constructor|].
  destruct (Z.eqb_spec x 0); constructor; assumption.
Qed.

End CString.

(** X1. The pointers buffer_to_list leaves are exactly the line starts of
    the text in the buffer, in increasing order: the offsets before the
    first zero byte whose byte is no terminator and that are at the start
    of the buffer or just after a terminator. What the vector held before
    plays no part. *)
Theorem buffer_to_list_pointers line_list buffer :
  exists v' buffer',
    buffer_to_list line_list buffer = Some (v', buffer') /\
    StronglySorted lt (elems v') /\
    forall p,
      p ∈ elems v' <->
      (p < length (c_str buffer))%nat /\
      is_terminator (deref buffer p) = false /\
      (p = O \/ is_terminator (deref buffer (p - 1)) = true).
Proof.
  rewrite buffer_to_list_exact. do 2 eexists. split; [reflexivity|].
  rewrite elems_push_all, elems_reserve. simpl.
  split; [apply starts_from_sorted|].
  intros p. rewrite elem_of_starts_from. simpl. split.
  - intros (i & c & -> & Hi & Hc & Hprev).
    assert (Hlt : (i < length (c_str buffer))%nat) by (eapply lookup_lt_Some, Hi).
    destruct (c_str_deref buffer i Hlt) as [Hd _].
    split; [exact Hlt|]. split; [congruence|].
    destruct i as [|j]; [left; reflexivity|right].
    destruct Hprev as (d & Hj & Hsep).
    assert (Hltj : (j < length (c_str buffer))%nat) by (eapply lookup_lt_Some, Hj).
    destruct (c_str_deref buffer j Hltj) as [Hdj _].
    replace (S j - 1)%nat with j by lia. congruence.
  - intros (Hlt & Hc & Hprev).
    destruct (c_str_deref buffer p Hlt) as [Hd _].
    exists p, (deref buffer p). split; [reflexivity|]. split; [exact Hd|].
    split; [exact Hc|].
    destruct p as [|j]; [reflexivity|].
    destruct Hprev as [|Hprev]; [discriminate|].
    replace (S j - 1)%nat with j in Hprev by lia.
    exists (deref buffer j). split; [|exact Hprev].
    apply c_str_deref. lia.
Qed.

(** ** The bytes buffer_to_list writes *)

Section Writes.

Lemma zero_heads_length mem : forall in_run, length (zero_heads in_run mem) = length mem.
Proof.
  induction mem as [|c mem IH]; intros in_run; simpl; [reflexivity|].
  destruct (c =? 0); [reflexivity|].
  destruct (is_terminator c); simpl; rewrite IH; reflexivity.
Qed.

Lemma zero_heads_lookup mem : forall in_run i c,
  mem !! i = Some c ->
  zero_heads in_run mem !! i = Some c \/
  (is_terminator c = true /\ zero_heads in_run mem !! i = Some 0).
Proof.
  induction mem as [|x mem IH]; intros in_run i c Hi; [discriminate|]. simpl.
  destruct (x =? 0); [left; exact Hi|].
  destruct (is_terminator x) eqn:Hx.
  - destruct i as [|i]; simpl in *; [|apply IH, Hi].
    injection Hi as <-. destruct in_run; [left; reflexivity|right; split; [exact Hx|reflexivity]].
  - destruct i as [|i]; simpl in *; [left; exact Hi|apply IH, Hi].
Qed.

Lemma deref_S c mem i : deref (c :: mem) (S i) = deref mem i.
Proof. reflexivity. Qed.

(** Which bytes become zero: the terminators before the first zero that
    do not follow a terminator. *)
Lemma zero_heads_lookup_exact mem : forall in_run i,
  zero_heads in_run mem !! i =
  if (i <? length (c_str mem))%nat && is_terminator (deref mem i) &&
     negb match i with O => in_run | S j => is_terminator (deref mem j) end
  then Some 0 else mem !! i.
Proof.
  induction mem as [|c mem IH]; intros in_run i; [destruct i; reflexivity|].
  simpl zero_heads. simpl c_str.
  destruct (Z.eqb_spec c 0) as [->|Hc]; [destruct i; reflexivity|].
  destruct (is_terminator c) eqn:Ht.
  - destruct i as [|i].
    + change (deref (c :: mem) 0) with c. rewrite Ht. simpl.
      destruct in_run; reflexivity.
    + change ((((if in_run then c else 0) :: zero_heads true mem) !! S i))
        with (zero_heads true mem !! i).
      rewrite IH, deref_S. change ((c :: mem) !! S i) with (mem !! i).
      change (S i <? length (c :: c_str mem))%nat with (i <? length (c_str mem))%nat.
      destruct i as [|j]; [change (deref (c :: mem) 0) with c; rewrite Ht; reflexivity|].
      rewrite deref_S. reflexivity.
  - destruct i as [|i].
    + change (deref (c :: mem) 0) with c. rewrite Ht.
      rewrite andb_false_r. reflexivity.
    + change ((c :: zero_heads false mem) !! S i) with (zero_heads false mem !! i).
      rewrite IH, deref_S. change ((c :: mem) !! S i) with (mem !! i).
      change (S i <? length (c :: c_str mem))%nat with (i <? length (c_str mem))%nat.
      destruct i as [|j]; [change (deref (c :: mem) 0) with c; rewrite Ht; reflexivity|].
      rewrite deref_S. reflexivity.
Qed.

(** Memory that holds a line (no terminator before the first zero) is left
    as it is. *)
Lemma zero_heads_line mem :
  Forall (fun c => is_terminator c = false) (c_str mem) -> zero_heads false mem = mem.
Proof.
  induction mem as [|c mem IH]; simpl; [reflexivity|].
  destruct (c =? 0); [reflexivity|]. intros H.
  inversion H as [|? ? Hc Hrest]; subst. rewrite Hc, IH by exact Hrest. reflexivity.
Qed.

Lemma starts_from_word sep w :
  w <> [] -> Forall (fun c => sep c = false) w -> forall pos,
  starts_from sep true pos w = [pos].
Proof.
  intros Hne Hw pos. destruct Hw as [|c w Hc Hw]; [contradiction|].
  simpl. rewrite Hc. simpl. f_equal.
  clear Hne Hc. revert pos. induction Hw as [|d w Hd _ IH]; intros pos; [reflexivity|].
  simpl. rewrite Hd. apply IH.
Qed.

Lemma runs_word sep w in_run :
  Forall (fun c => sep c = false) w -> runs sep in_run w = O.
Proof.
  intros Hw. revert in_run. induction Hw as [|c w Hc _ IH]; intros in_run; [reflexivity|].
  simpl. rewrite Hc. apply IH.
Qed.

Lemma fields_no_sep sep t : Forall (Forall (fun c => sep c = false)) (fields sep t).
Proof.
  induction t as [|c t IH]; simpl; [repeat constructor|].
  destruct (sep c) eqn:Hc; [constructor; [constructor|exact IH]|].
  destruct (fields sep t) as [|f fs]; [repeat constructor; exact Hc|].
  inversion IH; subst. constructor; [constructor; assumption|assumption].
Qed.

Lemma nonempty_fields_lines sep t :
  Forall (fun f => f <> [] /\ Forall (fun c => sep c = false) f) (nonempty_fields sep t).
Proof.
  unfold nonempty_fields. apply Forall_forall. intros f Hf.
  apply list_elem_of_In, List.filter_In in Hf. destruct Hf as [Hin Hne]. split.
  - intros ->. discriminate.
  - pose proof (fields_no_sep sep t) as H. rewrite Forall_forall in H.
    apply H, list_elem_of_In, Hin.
Qed.

End Writes.

(** X2. buffer_to_list keeps the length of the buffer and writes nothing
    but zero bytes over line terminators. The bytes that become zero are
    exactly the first terminator of each run of terminators of the text:
    the terminators before the first zero byte that are at the start of the
    buffer or follow a byte that is no terminator. Every other byte, so
    every byte of a line, is afterwards what it was. *)
Theorem buffer_to_list_writes line_list buffer :
  exists v' buffer',
    buffer_to_list line_list buffer = Some (v', buffer') /\
    length buffer' = length buffer /\
    (forall i,
       buffer' !! i =
       if (i <? length (c_str buffer))%nat && is_terminator (deref buffer i) &&
          negb match i with O => false | S j => is_terminator (deref buffer j) end
       then Some 0 else buffer !! i) /\
    forall i c, buffer !! i = Some c ->
      buffer' !! i = Some c \/ (is_terminator c = true /\ buffer' !! i = Some 0).
Proof.
  rewrite buffer_to_list_exact. do 2 eexists. split; [reflexivity|].
  split; [apply zero_heads_length|]. split.
  - intros i. apply zero_heads_lookup_exact.
  - intros i c. apply zero_heads_lookup.
Qed.

Lemma buffer_to_list_writes_witness :
  exists v' buffer',
    buffer_to_list Vector.empty (bytes "a" ++ [LF] ++ bytes "b") = Some (v', buffer') /\
    (buffer' !! 1%nat = Some LF \/ (is_terminator LF = true /\ buffer' !! 1%nat = Some 0)).
Proof.
  destruct (buffer_to_list_writes Vector.empty (bytes "a" ++ [LF] ++ bytes "b"))
    as (v' & buffer' & Hrun & _ & _ & Hbytes).
  exists v', buffer'. split; [exact Hrun|]. apply Hbytes. reflexivity.
Defined.

(** X3. Splitting again does not subdivide: on the memory at any pointer
    that buffer_to_list has left (a line, ended by the zero it wrote or by
    the end of the buffer), buffer_to_list returns the single pointer 0 and
    leaves the memory as it is. *)
Theorem buffer_to_list_idempotent line_list buffer v' buffer' p other :
  buffer_to_list line_list buffer = Some (v', buffer') ->
  p ∈ elems v' ->
  exists v'',
    buffer_to_list other (drop p buffer') = Some (v'', drop p buffer') /\
    elems v'' = [O].
Proof.
  intros Hrun Hp.
  destruct (buffer_to_list_spec line_list buffer) as (v1 & b1 & Hrun1 & Hlines & _).
  rewrite Hrun in Hrun1. injection Hrun1 as <- <-.
  assert (Hline : string_at buffer' p ∈ nonblank_lines (c_str buffer)).
  { rewrite <- Hlines. apply list_elem_of_fmap_2, Hp. }
  pose proof (nonempty_fields_lines is_terminator (c_str buffer)) as Hall.
  rewrite Forall_forall in Hall. destruct (Hall _ Hline) as [Hne Hnosep].
  unfold string_at in Hne, Hnosep.
  rewrite buffer_to_list_exact. eexists. split.
  - rewrite (zero_heads_line _ Hnosep). reflexivity.
  - rewrite elems_push_all, elems_reserve. simpl.
    apply starts_from_word; assumption.
Qed.

Lemma buffer_to_list_idempotent_witness :
  exists v'',
    buffer_to_list Vector.empty (drop 2 [97; 0; 98; 0; 10]) = Some (v'', drop 2 [97; 0; 98; 0; 10]) /\
    elems v'' = [O].
Proof.
  apply (buffer_to_list_idempotent Vector.empty (bytes "a" ++ [LF] ++ bytes "b" ++ [LF; LF])
           (Build_vector [0%nat; 2%nat] 2 0) [97; 0; 98; 0; 10] 2%nat Vector.empty).
  - reflexivity.
  - right. left.
Defined.

(** ** The count of the first walk against the pointers of the second *)

Section Counting.

Lemma ends_with_terminator_cons c t :
  t <> [] -> ends_with_terminator (c :: t) = ends_with_terminator t.
Proof.
  intros Hne. unfold ends_with_terminator. destruct t as [|d t]; [contradiction|].
  rewrite last_cons_cons. reflexivity.
Qed.

(** Line starts and terminator runs alternate. *)
Lemma starts_and_runs t : forall pos,
  (length (starts_from is_terminator false pos t) + Nat.b2n (ends_with_terminator t) =
   runs is_terminator false t)%nat /\
  (length (starts_from is_terminator true pos t) + Nat.b2n (ends_with_terminator t) =
   runs is_terminator true t + match t with [] => 0 | _ :: _ => 1 end)%nat.
Proof.
  induction t as [|c t IH]; intros pos; [split; reflexivity|].
  destruct (IH (S pos)) as [IHf IHt]. simpl starts_from. simpl runs.
  destruct (is_terminator c) eqn:Hc.
  - destruct t as [|d t].
    + unfold ends_with_terminator. simpl. rewrite Hc. split; reflexivity.
    + rewrite ends_with_terminator_cons by discriminate. split; lia.
  - destruct t as [|d t].
    + unfold ends_with_terminator. simpl. rewrite Hc. split; reflexivity.
    + rewrite ends_with_terminator_cons by discriminate.
      cbn [app length]. split; lia.
Qed.

Lemma runs_flag t :
  runs is_terminator false t =
  (runs is_terminator true t + Nat.b2n (is_terminator (default 0%Z (head t))))%nat.
Proof.
  destruct t as [|c t]; [reflexivity|]. simpl.
  destruct (is_terminator c); simpl; lia.
Qed.

Lemma head_c_str s : default 0 (head (c_str s)) = default 0 (head s).
Proof.
  destruct s as [|c s]; [reflexivity|]. simpl.
  destruct (Z.eqb_spec c 0) as [->|]; reflexivity.
Qed.

Lemma c_str_nil_iff s : c_str s = [] <-> default 0 (head s) = 0.
Proof.
  destruct s as [|c s]; simpl; [split; reflexivity|].
  destruct (Z.eqb_spec c 0); split; (congruence || discriminate).
Qed.

(** The count, the pointers and the two ends of the text. *)
Lemma count_and_pointers buffer :
  (length (starts_from is_terminator true 0 (c_str buffer)) +
   Nat.b2n (ends_with_terminator (c_str buffer)) +
   Nat.b2n (is_terminator (deref buffer 0)) =
   terminator_runs (c_str buffer) + Nat.b2n (negb (deref buffer 0 =? 0)%Z))%nat.
Proof.
  unfold terminator_runs. rewrite runs_flag, head_c_str.
  rewrite deref_drop, drop_0.
  destruct (starts_and_runs (c_str buffer) O) as [_ H].
  assert (Hne : match c_str buffer with [] => O | _ :: _ => 1%nat end =
                Nat.b2n (negb (default 0 (head buffer) =? 0)%Z)).
  { pose proof (c_str_nil_iff buffer) as Hnil.
    destruct (c_str buffer).
    - rewrite (proj1 Hnil eq_refl). reflexivity.
    - destruct (Z.eqb_spec (default 0 (head buffer)) 0) as [E|_]; [|reflexivity].
      apply Hnil in E. discriminate. }
  rewrite Hne in H. lia.
Qed.

Lemma push_all_fits {A} (l : list A) : forall v,
  (length (elems v) + length l <= capacity v)%nat ->
  push_all v l = Build_vector (elems v ++ l) (capacity v) (regrowths v).
Proof.
  unfold push_all. induction l as [|x l IH]; intros v Hfit; simpl.
  - rewrite app_nil_r. destruct v; reflexivity.
  - simpl in Hfit. unfold Vector.push_back at 2.
    destruct (Nat.ltb_spec (length (elems v)) (capacity v)); [|lia].
    rewrite IH; simpl; [|rewrite length_app; simpl; lia].
    rewrite <- app_assoc. reflexivity.
Qed.

Lemma push_all_snoc {A} (l : list A) x v :
  push_all v (l ++ [x]) = Vector.push_back (push_all v l) x.
Proof. unfold push_all. rewrite foldl_app. reflexivity. Qed.

End Counting.

(** X4. The first walk of buffer_to_list counts the runs of line
    terminators of the text in the buffer; with the length of the final
    vector it satisfies: pointers + (1 if the text ends with a terminator) +
    (1 if it starts with one) = count + (1 if the text is not empty). So the
    count is the number of lines exactly when the text is empty, or starts
    with a line and ends with a terminator, or starts with a terminator and
    ends with a line. *)
Theorem count_lines_and_pointers line_list buffer :
  exists v' buffer',
    count_lines (S (length buffer)) buffer 0 0 = Some (terminator_runs (c_str buffer)) /\
    buffer_to_list line_list buffer = Some (v', buffer') /\
    (length (elems v') + Nat.b2n (ends_with_terminator (c_str buffer))
       + Nat.b2n (is_terminator (deref buffer 0)) =
     terminator_runs (c_str buffer) + Nat.b2n (negb (deref buffer 0 =? 0)%Z))%nat.
Proof.
  rewrite buffer_to_list_exact. do 2 eexists.
  split; [|split; [reflexivity|]].
  - rewrite count_lines_spec by lia. unfold string_at. rewrite drop_0. reflexivity.
  - rewrite elems_push_all, elems_reserve. simpl. apply count_and_pointers.
Qed.

(** X5. Called on an empty vector, as build does, buffer_to_list makes
    push_back grow the vector at most once: it grows exactly when the text
    starts with a line and does not end with a terminator (then the vector
    was reserved for one pointer less than it gets); otherwise the vector
    keeps the capacity reserved for the count of the first walk. *)
Theorem buffer_to_list_growth buffer :
  exists v' buffer',
    buffer_to_list Vector.empty buffer = Some (v', buffer') /\
    regrowths v' =
      Nat.b2n (starts_line (deref buffer 0) && negb (ends_with_terminator (c_str buffer))) /\
    (regrowths v' = O -> capacity v' = terminator_runs (c_str buffer)).
Proof.
  rewrite buffer_to_list_exact. do 2 eexists. split; [reflexivity|].
  pose proof (count_and_pointers buffer) as Hcount.
  set (n := terminator_runs (c_str buffer)) in *.
  set (l := starts_from is_terminator true 0 (c_str buffer)) in *.
  assert (Hv : Vector.reserve (Vector.clear (@Vector.empty nat)) n = Build_vector [] n O).
  { unfold Vector.reserve, Vector.clear, Vector.empty. simpl.
    destruct (Nat.ltb_spec 0 n) as [|Hn]; [reflexivity|].
    replace n with O by lia. reflexivity. }
  rewrite Hv. rewrite starts_line_in_line. unfold in_line.
  assert (Hend : deref buffer 0 = 0 -> ends_with_terminator (c_str buffer) = false).
  { intros Hz. rewrite deref_drop, drop_0 in Hz.
    rewrite (proj2 (c_str_nil_iff buffer) Hz). reflexivity. }
  destruct (Z.eqb_spec (deref buffer 0) 0) as [Hz|Hnz].
  { rewrite (Hend Hz), Hz in Hcount. simpl in Hcount.
    rewrite push_all_fits by (simpl; lia). simpl. split; [reflexivity|]. reflexivity. }
  simpl in Hcount. simpl negb.
  destruct (is_terminator (deref buffer 0)); simpl in Hcount |- *.
  { rewrite push_all_fits by (simpl; destruct (ends_with_terminator _); simpl in *; lia).
    split; reflexivity. }
  destruct (ends_with_terminator (c_str buffer)); simpl in Hcount |- *.
  { rewrite push_all_fits by (simpl; lia). split; reflexivity. }
  assert (Hl : exists l0 x, l = l0 ++ [x] /\ length l0 = n).
  { destruct (rev l) as [|x r] eqn:Er.
    - apply (f_equal (@length nat)) in Er. rewrite length_rev in Er. simpl in Er. lia.
    - exists (rev r), x. split.
      + rewrite <- (rev_involutive l), Er. reflexivity.
      + apply (f_equal (@length nat)) in Er. rewrite length_rev in Er.
        rewrite length_rev. simpl in Er. lia. }
  destruct Hl as (l0 & x & -> & Hl0).
  rewrite push_all_snoc, push_all_fits by (simpl; lia). simpl.
  unfold Vector.push_back. simpl.
  destruct (Nat.ltb_spec (length l0) n); [lia|]. simpl. split; [reflexivity|discriminate].
Qed.

(** ** The object the parser leaves *)

Section Objects.

Lemma store_from_beyond values : forall obj dimension,
  (length (vector obj) <= dimension)%nat ->
  store_from obj dimension values =
  Build_object (vector obj) (beyond obj ++ zip (seq dimension (length values)) values).
Proof.
  induction values as [|value values IH]; intros obj dimension Hfull; simpl.
  - rewrite app_nil_r. destruct obj; reflexivity.
  - unfold store at 1. destruct (Nat.ltb_spec dimension (length (vector obj))); [lia|].
    rewrite IH by (simpl; lia). simpl. rewrite <- app_assoc. reflexivity.
Qed.

Lemma store_from_fill values : forall pre m b,
  store_from (Build_object (pre ++ replicate m None) b) (length pre) values =
  Build_object
    ((pre ++ (Some <$> take m values)) ++ replicate (m - length values) None)
    (b ++ zip (seq (length pre + m) (length values - m)) (drop m values)).
Proof.
  induction values as [|value values IH]; intros pre m b.
  - simpl. rewrite ?take_nil, ?drop_nil, ?Nat.sub_0_r, ?app_nil_r. reflexivity.
  - destruct m as [|m].
    + rewrite store_from_beyond by (simpl; rewrite app_nil_r; lia).
      simpl. rewrite !app_nil_r, Nat.add_0_r. reflexivity.
    + assert (Hstore : store (Build_object (pre ++ replicate (S m) None) b) (length pre) value =
                       Build_object ((pre ++ [Some value]) ++ replicate m None) b).
      { unfold store. cbn [vector beyond].
        assert (Hlt : (length pre <? length (pre ++ replicate (S m) None))%nat = true).
        { apply Nat.ltb_lt. rewrite length_app, length_replicate. lia. }
        rewrite Hlt. rewrite insert_app_r_alt by lia. rewrite Nat.sub_diag.
        rewrite <- app_assoc. reflexivity. }
      change (store_from ?o ?d (value :: values))
        with (store_from (store o d value) (S d) values).
      rewrite Hstore.
      replace (S (length pre)) with (length (pre ++ [Some value]))
        by (rewrite length_app; simpl; lia).
      rewrite IH. rewrite length_app. simpl.
      rewrite <- !app_assoc. simpl.
      replace (length pre + 1 + m)%nat with (length pre + S m)%nat by lia.
      reflexivity.
Qed.

Lemma fields_head sep t :
  exists f fs, fields sep t = f :: fs /\
    nonempty f = match t with c :: _ => negb (sep c) | [] => false end.
Proof.
  destruct t as [|c t]; simpl; [eexists _, _; split; reflexivity|].
  destruct (sep c); [eexists _, _; split; reflexivity|].
  destruct (fields sep t); eexists _, _; split; reflexivity.
Qed.

(** As many tails as fields that are not empty. *)
Lemma tails_from_length sep t :
  length (tails_from sep true t) = length (nonempty_fields sep t) /\
  (length (tails_from sep false t) +
   Nat.b2n match t with c :: _ => negb (sep c) | [] => false end =
   length (nonempty_fields sep t))%nat.
Proof.
  induction t as [|c t [IHt IHf]]; [split; reflexivity|].
  simpl tails_from. destruct (sep c) eqn:Hc.
  - rewrite nonempty_fields_sep by exact Hc. simpl. split; lia.
  - destruct (fields_head sep t) as (f & fs & Hf & Hne).
    assert (HN : length (nonempty_fields sep (c :: t)) =
                 S (length (List.filter nonempty fs))).
    { unfold nonempty_fields. simpl. rewrite Hc, Hf. reflexivity. }
    assert (HN' : length (nonempty_fields sep t) =
                 (Nat.b2n (nonempty f) + length (List.filter nonempty fs))%nat).
    { unfold nonempty_fields. rewrite Hf. simpl. destruct (nonempty f); reflexivity. }
    rewrite HN. rewrite HN', Hne in IHf. cbn [app length Nat.b2n negb]. split; lia.
Qed.

Lemma line_values_length atof line :
  length (line_values atof line) = length (tokens line).
Proof.
  unfold line_values, token_tails, tokens. rewrite length_fmap.
  apply tails_from_length.
Qed.

Lemma parse_line_object atof buffer dimensions line :
  parse_line atof buffer dimensions line =
  Some (line_object atof dimensions (string_at buffer line)).
Proof.
  destruct (parse_line_spec atof buffer dimensions line) as (values & Hvalues & _ & ->).
  f_equal. unfold new_object, line_object, line_values. rewrite <- Hvalues.
  exact (store_from_fill values [] dimensions []).
Qed.

End Objects.

(** X6. For every line, the Vector Parser leaves this object: with one
    value per token of the line (the float that atof reads at the start of
    the token), the array holds the first [dimensions] values in order, its
    components after the last token are not written, and the values after
    the [dimensions]-th are stored after the end of the array at the
    indices [dimensions], [dimensions + 1], ... *)
Theorem parse_line_exact atof buffer dimensions line :
  let values := line_values atof (string_at buffer line) in
  length values = length (tokens (string_at buffer line)) /\
  parse_line atof buffer dimensions line =
  Some (Build_object
          ((Some <$> take dimensions values) ++ replicate (dimensions - length values) None)
          (zip (seq dimensions (length values - dimensions)) (drop dimensions values))).
Proof.
  split; [apply line_values_length|]. apply parse_line_object.
Qed.

(** X7. The object the parser leaves has the declared number of
    components; the parser stays inside the array exactly when the line has
    at most [dimensions] tokens, and it has written every component exactly
    when the line has at least [dimensions] tokens. *)
Theorem parse_line_bounds atof buffer dimensions line :
  exists obj,
    parse_line atof buffer dimensions line = Some obj /\
    length (vector obj) = dimensions /\
    (beyond obj = [] <-> (length (tokens (string_at buffer line)) <= dimensions)%nat) /\
    (Forall is_Some (vector obj) <->
     (dimensions <= length (tokens (string_at buffer line)))%nat).
Proof.
  rewrite parse_line_object. eexists. split; [reflexivity|].
  rewrite <- (line_values_length atof). unfold line_object.
  set (values := line_values atof (string_at buffer line)). simpl.
  split; [|split].
  - rewrite length_app, length_fmap, length_take, length_replicate. lia.
  - split.
    + intros H. apply (f_equal length) in H.
      rewrite length_zip, length_seq, length_drop in H. simpl in H. lia.
    + intros H. replace (length values - dimensions)%nat with O by lia. reflexivity.
  - rewrite Forall_app. split.
    + intros [_ H]. destruct (dimensions - length values)%nat eqn:E; [lia|].
      simpl in H. inversion H as [|? ? Hnone _]. destruct Hnone; discriminate.
    + intros H. replace (dimensions - length values)%nat with O by lia.
      split; [|constructor].
      apply Forall_fmap, Forall_forall. intros; eexists; reflexivity.
Qed.

(** ** build on a file that was read *)

Section BuildExact.
Variable atof : list Z -> spec_float.

Lemma mapM_total {A B} (f : A -> option B) (g : A -> B) l :
  (forall x, f x = Some (g x)) -> mapM f l = Some (g <$> l).
Proof.
  intros H. apply mapM_Some. induction l as [|x l IH]; constructor; [apply H|exact IH].
Qed.

Lemma build_reads_exact fs infilename outfilename tree_order contents first rest :
  2 <= tree_order <= 1000000 ->
  contents <> [] ->
  fs infilename = Present (Some (length contents)) (Some contents) ->
  nonblank_lines (c_str contents) = first :: rest ->
  build atof fs infilename tree_order outfilename =
  Some ([Fopen infilename; Fclose infilename; TreeNew tree_order (length (tokens first))]
          ++ replicate (length (first :: rest)) NewObject
          ++ (TreePushBack <$> (line_object atof (length (tokens first)) <$> first :: rest))
          ++ [OfstreamOpen outfilename; OfstreamWrite; OfstreamClose],
        Returned 0).
Proof.
  intros Hok Hne Hfs Hlines.
  rewrite (build_order_ok atof fs infilename outfilename tree_order Hok).
  rewrite (read_entire_file_present fs infilename contents Hfs Hne).
  destruct contents as [|c contents]; [contradiction|].
  change (length (c :: contents) <=? 0)%nat with false. cbv iota.
  destruct (buffer_to_list_spec Vector.empty (c :: contents))
    as (lines & buffer & -> & Hl & _).
  cbn [mbind option_bind]. rewrite Hlines in Hl.
  destruct (elems lines) as [|p ps] eqn:El; [discriminate|].
  cbn [lookup list_lookup]. rewrite line_dimensions_spec. cbn [mbind option_bind].
  assert (Hfirst : string_at buffer p = first) by (simpl in Hl; congruence).
  rewrite Hfirst.
  rewrite (mapM_total _ (fun q => line_object atof (length (tokens first)) (string_at buffer q)))
    by (intros q; apply parse_line_object).
  cbn [mbind option_bind].
  rewrite const_fmap with (y := NewObject) by (intros; reflexivity).
  rewrite (list_fmap_compose (string_at buffer) (line_object atof (length (tokens first)))).
  rewrite Hl. apply (f_equal length) in Hl. rewrite length_fmap in Hl. rewrite Hl.
  reflexivity.
Qed.

Lemma line_object_full dimensions line :
  length (tokens line) = dimensions ->
  line_object atof dimensions line = Build_object (Some <$> line_values atof line) [].
Proof.
  intros H. unfold line_object. rewrite <- (line_values_length atof) in H.
  rewrite take_ge, drop_ge by lia.
  replace (dimensions - length (line_values atof line))%nat with O by lia.
  replace (length (line_values atof line) - dimensions)%nat with O by lia.
  simpl. rewrite app_nil_r. reflexivity.
Qed.

End BuildExact.

(** X8. On an input file that was read and whose text has a non-blank
    line, build returns 0 after exactly this run: the file is opened and
    closed; the index is made with the given tree order and the number of
    tokens of the first non-blank line as its dimensionality; one object is
    taken from the factory per non-blank line; the objects of the lines,
    each parsed with that dimensionality, are pushed into the index in file
    order; then the output file is opened, written and closed. *)
Theorem build_run atof fs infilename tree_order outfilename contents first rest :
  2 <= tree_order <= 1000000 ->
  contents <> [] ->
  fs infilename = Present (Some (length contents)) (Some contents) ->
  nonblank_lines (c_str contents) = first :: rest ->
  build atof fs infilename tree_order outfilename =
  Some ([Fopen infilename; Fclose infilename; TreeNew tree_order (length (tokens first))]
          ++ replicate (length (first :: rest)) NewObject
          ++ (TreePushBack <$> (line_object atof (length (tokens first)) <$> first :: rest))
          ++ [OfstreamOpen outfilename; OfstreamWrite; OfstreamClose],
        Returned 0).
Proof. apply build_reads_exact. Qed.

Lemma build_run_witness :
  build decimal_atof
    (fun _ => Present (Some 12%nat)
                (Some (bytes "0 0" ++ [LF] ++ bytes "1 1" ++ [LF] ++ bytes "2 2" ++ [LF])))
    "vectors.txt" 2 "tree.out" =
  Some ([Fopen "vectors.txt"; Fclose "vectors.txt"; TreeNew 2 2]
          ++ replicate 3 NewObject
          ++ (TreePushBack <$> (line_object decimal_atof 2 <$>
                                  [bytes "0 0"; bytes "1 1"; bytes "2 2"]))
          ++ [OfstreamOpen "tree.out"; OfstreamWrite; OfstreamClose],
        Returned 0).
Proof.
  apply (build_run decimal_atof _ "vectors.txt" 2 "tree.out"
           (bytes "0 0" ++ [LF] ++ bytes "1 1" ++ [LF] ++ bytes "2 2" ++ [LF])
           (bytes "0 0") [bytes "1 1"; bytes "2 2"]).
  - lia.
  - discriminate.
  - reflexivity.
  - reflexivity.
Defined.

(** X9. When every non-blank line of the file has as many tokens as the
    first, build returns 0 and every object it pushes into the index has
    all its components written, one per token of its line in order, and
    nothing stored after the end of its array. *)
Theorem build_well_formed atof fs infilename tree_order outfilename contents first rest :
  2 <= tree_order <= 1000000 ->
  contents <> [] ->
  fs infilename = Present (Some (length contents)) (Some contents) ->
  nonblank_lines (c_str contents) = first :: rest ->
  Forall (fun line => length (tokens line) = length (tokens first)) rest ->
  build atof fs infilename tree_order outfilename =
  Some ([Fopen infilename; Fclose infilename; TreeNew tree_order (length (tokens first))]
          ++ replicate (length (first :: rest)) NewObject
          ++ (TreePushBack <$>
                ((fun line => Build_object (Some <$> line_values atof line) [])
                   <$> first :: rest))
          ++ [OfstreamOpen outfilename; OfstreamWrite; OfstreamClose],
        Returned 0).
Proof.
  intros Hok Hne Hfs Hlines Hall.
  rewrite (build_reads_exact atof fs infilename outfilename tree_order contents first rest)
    by assumption.
  assert (Heq : line_object atof (length (tokens first)) <$> first :: rest =
                (fun line => Build_object (Some <$> line_values atof line) [])
                  <$> first :: rest).
  { apply Forall_fmap_ext.
    constructor; [apply line_object_full; reflexivity|].
    eapply Forall_impl; [exact Hall|]. intros line. apply line_object_full. }
  rewrite Heq. reflexivity.
Qed.

Lemma build_well_formed_witness :
  build decimal_atof
    (fun _ => Present (Some 8%nat) (Some (bytes "0 0" ++ [LF] ++ bytes "1 1" ++ [LF])))
    "vectors.txt" 2 "tree.out" =
  Some ([Fopen "vectors.txt"; Fclose "vectors.txt"; TreeNew 2 2]
          ++ replicate 2 NewObject
          ++ (TreePushBack <$>
                ((fun line => Build_object (Some <$> line_values decimal_atof line) [])
                   <$> [bytes "0 0"; bytes "1 1"]))
          ++ [OfstreamOpen "tree.out"; OfstreamWrite; OfstreamClose],
        Returned 0).
Proof.
  apply (build_well_formed decimal_atof _ "vectors.txt" 2 "tree.out"
           (bytes "0 0" ++ [LF] ++ bytes "1 1" ++ [LF]) (bytes "0 0") [bytes "1 1"]).
  - lia.
  - discriminate.
  - reflexivity.
  - reflexivity.
  - repeat constructor.
Defined.

(** ** read_entire_file, the diagnostics of build, and main *)


(** X11. When the input file gives no byte (it cannot be opened, fstat
    fails, or its size is zero) and the tree order is valid, build prints
    the diagnostic that names the file, between quotes, and calls exit with
    the length of that line, 28 plus the length of the name; it makes no
    other call than those of read_entire_file. *)
Theorem build_cannot_read_run atof fs infilename tree_order outfilename :
  2 <= tree_order <= 1000000 ->
  fs infilename = Missing \/
  (exists data, fs infilename = Present None data) \/
  (exists data, fs infilename = Present (Some O) data) ->
  build atof fs infilename tree_order outfilename =
  Some (Fopen infilename ::
        match fs infilename with Missing => [] | Present _ _ => [Fclose infilename] end
        ++ [Print ("Cannot read vector file: '" +:+ infilename +:+ "'" +:+ newline)],
        Exited (28 + Z.of_nat (String.length infilename))).
Proof.
  intros Hok Hfs. rewrite <- printf_cannot_read.
  destruct (read_entire_file_nothing fs infilename Hfs) as (io & Hread & _).
  rewrite (build_cannot_read atof fs infilename outfilename tree_order Hok [] io Hread).
  unfold read_entire_file in Hread.
  destruct Hfs as [E|[[data E]|[data E]]]; rewrite E in Hread |- *;
    injection Hread as <-; reflexivity.
Qed.

Lemma build_cannot_read_run_witness :
  build decimal_atof (fun _ => Missing) "vectors.txt" 8 "tree.out" =
  Some ([Fopen "vectors.txt";
         Print ("Cannot read vector file: '" +:+ "vectors.txt" +:+ "'" +:+ newline)],
        Exited 39).
Proof.
  apply (build_cannot_read_run decimal_atof (fun _ => Missing) "vectors.txt" 8 "tree.out").
  - lia.
  - left. reflexivity.
Defined.

(** X12. Unless it is called with four arguments of which the first is
    build, main touches no file: it returns 0 after the unit tests or the
    usage text only. *)
Theorem main_without_build atof atoi fs argv :
  ~ (length argv = 5%nat /\ arg argv 1 = "build") ->
  exists trace,
    main atof atoi fs argv = Some (trace, Returned 0) /\
    Forall (fun e => touches_file e = false) trace.
Proof.
  intros Hnot. unfold main.
  destruct (Nat.eqb_spec (length argv) 5) as [E5|_]; simpl.
  - unfold strcmp_eq.
    destruct (String.eqb_spec (arg argv 1) "unittest") as [_|_];
      [eexists; split; [reflexivity|repeat constructor]|].
    destruct (String.eqb_spec (arg argv 1) "build") as [Eb|_];
      [exfalso; apply Hnot; split; assumption|].
    eexists; split; [reflexivity|repeat constructor].
  - destruct (length argv =? 2)%nat; eexists; (split; [reflexivity|repeat constructor]).
Qed.

Lemma main_without_build_witness :
  exists trace,
    main decimal_atof (fun _ => 0) (fun _ => Missing)
      ["k_tree"; "unittest"; "vectors.txt"; "8"; "tree.out"] = Some (trace, Returned 0) /\
    Forall (fun e => touches_file e = false) trace.
Proof.
  apply main_without_build. intros [_ H]. discriminate.
Defined.

(** X13. In build mode the tree order is the int that atoi gives,
    converted to size_t: a negative one becomes a number above 1,000,000,
    so main rejects every order below 2, the negative ones included, and
    every order above 1,000,000, and runs build with the order itself when
    it is between 2 and 1,000,000. *)
Theorem main_build_tree_order atof atoi fs exename infile order outfile :
  - 2 ^ 31 <= atoi order < 2 ^ 31 ->
  (atoi order < 2 \/ 1000000 < atoi order ->
   main atof atoi fs [exename; "build"; infile; order; outfile] =
   Some ([Print tree_order_text], Exited 43)) /\
  (2 <= atoi order <= 1000000 ->
   main atof atoi fs [exename; "build"; infile; order; outfile] =
   build atof fs infile (atoi order) outfile).
Proof.
  intros Hint.
  change (main atof atoi fs [exename; "build"; infile; order; outfile])
    with (build atof fs infile (size_t_of_int (atoi order)) outfile).
  unfold size_t_of_int. split.
  - intros Hout. apply build_rejects_order.
    destruct (Z.lt_ge_cases (atoi order) 0) as [Hneg|Hpos].
    + right. rewrite <- (Z.mod_add _ 1) by lia.
      rewrite Z.mod_small by lia. lia.
    + rewrite Z.mod_small by lia. exact Hout.
  - intros Hin. rewrite Z.mod_small by lia. reflexivity.
Qed.

Lemma main_build_tree_order_witness :
  main decimal_atof (fun _ => -1) (fun _ => Missing)
    ["k_tree"; "build"; "vectors.txt"; "-1"; "tree.out"] =
  Some ([Print tree_order_text], Exited 43).
Proof.
  apply (proj1 (main_build_tree_order decimal_atof (fun _ => -1) (fun _ => Missing)
                  "k_tree" "vectors.txt" "-1" "tree.out" ltac:(lia))).
  left. lia.
Defined.

(** X14. main returns on every command line and file system, in one of
    four ways: it returns 0 (unit tests, usage text, or a build that went
    through); it calls exit with 43 (tree order out of range) or with 28
    plus the length of the input file name (no byte read); or it reads
    lines[0] of an empty vector. It never returns another status. *)
Theorem main_outcomes atof atoi fs argv :
  exists trace out,
    main atof atoi fs argv = Some (trace, out) /\
    (out = Returned 0 \/ out = Exited 43 \/
     out = Exited (28 + Z.of_nat (String.length (arg argv 2))) \/
     out = Undefined).
Proof.
  unfold main.
  destruct (Nat.eqb_spec (length argv) 5) as [_|_]; simpl;
    [|destruct (length argv =? 2)%nat; do 2 eexists; split; (reflexivity || (left; reflexivity))].
  destruct (strcmp_eq (arg argv 1) "unittest");
    [do 2 eexists; split; [reflexivity|left; reflexivity]|].
  destruct (strcmp_eq (arg argv 1) "build");
    [|do 2 eexists; split; [reflexivity|left; reflexivity]].
  set (tree_order := size_t_of_int (atoi (arg argv 3))).
  set (infilename := arg argv 2). set (outfilename := arg argv 4).
  destruct (Z.lt_ge_cases tree_order 2) as [Hlow|Hlow].
  { rewrite build_rejects_order by lia. do 2 eexists.
    split; [reflexivity|right; left; reflexivity]. }
  destruct (Z.lt_ge_cases 1000000 tree_order) as [Hhigh|Hhigh].
  { rewrite build_rejects_order by lia. do 2 eexists.
    split; [reflexivity|right; left; reflexivity]. }
  assert (Hok : 2 <= tree_order <= 1000000) by lia.
  destruct (read_entire_file fs infilename []) as [[n contents] io] eqn:E.
  destruct n as [|n].
  - rewrite (build_cannot_read atof fs infilename outfilename tree_order Hok _ _ E).
    do 2 eexists. split; [reflexivity|].
    right; right; left. rewrite printf_cannot_read. reflexivity.
  - destruct (build_reads atof fs infilename outfilename tree_order Hok _ _ _ E)
      as (lines & buffer & _ & _ & Hbuild); [lia|].
    destruct (elems lines) as [|first rest].
    + rewrite Hbuild. do 2 eexists. split; [reflexivity|]. right; right; right. reflexivity.
    + destruct Hbuild as (vector_list & _ & ->).
      do 2 eexists. split; [reflexivity|left; reflexivity].
Qed.
